(** * AgriGasha: the on-device leaf classifier (services/mlService.ts)

    A shallow embedding of the class [MLService]: its two static fields
    ([model], [labels]) and its two static async methods ([loadModel],
    [classifyImage]), followed by the properties of the classification and
    fallback contract.

    Modelling choices.
    - The methods are sequential code over a browser host.  Each await is a
      call to the host, so a method is a state transformer that may throw:
      a small state-and-exception monad [M].
    - The host (window.tflite, window.tf, fetch, the Image element) is not
      part of the class.  It is a record of oracles over an abstract world
      [W]: every host call may change the world and may throw.  Theorems
      quantify over all hosts.
    - Every host call is recorded in a log, newest event first, which is the
      view an instrumented runtime would have.
    - JavaScript numbers read from the output tensor are modelled as exact
      rationals [Q]: comparison and [Math.round] are exact; the rounding of
      the binary product [maxProb * 100] is outside the model.  A host
      delivers finite vectors only; NaN and the infinities are added by
      [Number], on which the loop and the rounding are stated again.
    - An image promise that never settles is outside the model: the Image
      element either fires onload or onerror. *)

From Stdlib Require Import List String Ascii ZArith QArith Qround Lqa Bool Arith Lia
  DecimalString.
Import ListNotations.

Local Close Scope Q_scope.
Local Open Scope string_scope.
Local Open Scope nat_scope.
Local Open Scope list_scope.

Set Implicit Arguments.

(** ** JavaScript values *)

(** [new Error(message)], or whatever object a host call throws. *)
Inductive exn : Type :=
| Error (message : string).

(** Completion of a call: a value, or a thrown exception. *)
Inductive res (A : Type) : Type :=
| Ok (a : A)
| Throw (e : exn).
Arguments Ok {A} a.
Arguments Throw {A} e.

(** The opaque model returned by [tflite.loadTFLiteModel]. *)
Definition Handle := nat.

(** An ArrayBuffer. *)
Definition Buffer := list Byte.byte.

(** The part of a fetch Response the service reads; [body_id] stands for the
    body that [arrayBuffer] will read. *)
Record Response : Type := {
  ok : bool;
  statusText : string;
  body_id : nat
}.

(** An HTMLImageElement, identified by its [src]. *)
Definition Image := string.

(** The output tensor of [predict], identified by the host. *)
Definition OutTensor := nat.

(** Tensors built through window.tf are kept symbolic: the term records the
    operations the service asked the library for, in order. *)
Module tf.

Inductive Tensor : Type :=
| fromPixels (img : Image)
| resizeBilinear (t : Tensor) (size : nat * nat)
| expandDims (t : Tensor) (axis : nat)
| toFloat (t : Tensor)
| div (t : Tensor) (c : Q)
| sub (t : Tensor) (c : Q).

(** Shape of the tensor denoted by a term, as the library documents its
    operations, for a decoded image of [h] by [w] pixels: [fromPixels] yields
    height, width and three channels; [resizeBilinear] replaces height and
    width of a rank 3 or rank 4 tensor; [expandDims] inserts an axis of
    size 1; the element-wise operations keep the shape. *)
Fixpoint shape (h w : nat) (t : Tensor) : list nat :=
  match t with
  | fromPixels _ => [h; w; 3%nat]
  | resizeBilinear t' (nh, nw) =>
      match shape h w t' with
      | [_; _; c] => [nh; nw; c]
      | [b; _; _; c] => [b; nh; nw; c]
      | s => s
      end
  | expandDims t' axis => firstn axis (shape h w t') ++ 1%nat :: skipn axis (shape h w t')
  | toFloat t' => shape h w t'
  | div t' _ => shape h w t'
  | sub t' _ => shape h w t'
  end.

(** What the element-wise operations of a term do to one element [x] of the
    tensor below them. *)
Fixpoint pointwise (t : Tensor) (x : Q) : Q :=
  match t with
  | fromPixels _ => x
  | resizeBilinear t' _ => pointwise t' x
  | expandDims t' _ => pointwise t' x
  | toFloat t' => pointwise t' x
  | div t' c => (pointwise t' x / c)%Q
  | sub t' c => (pointwise t' x - c)%Q
  end.

End tf.

(** ** The instrumented host *)

(** One entry per host interaction, with its outcome. *)
Inductive Event : Type :=
| EvWindowTflite (present : bool)
| EvSleep (ms : nat)
| EvSetWasmPath (path : string) (r : res unit)
| EvFetch (url : string) (r : res Response)
| EvArrayBuffer (resp : Response) (r : res Buffer)
| EvLoadTFLiteModel (buf : Buffer) (r : res Handle)
| EvImage (src : string) (loaded : bool)
| EvWindowTf (present : bool)
| EvTidy (t : tf.Tensor) (r : res unit)
| EvPredict (m : Handle) (t : tf.Tensor) (r : res OutTensor)
| EvData (o : OutTensor) (r : res (list Q))
| EvDispose (t : tf.Tensor) (r : res unit)
| EvConsoleLog (msg : string)
| EvConsoleError (msg : string) (e : exn).

(** The browser as the service sees it.
    - [window_tflite], [window_tf]: is the global there (truthy);
    - [setTimeout]: what the world is like once the timer has fired;
    - [setWasmPath], [loadTFLiteModel]: the methods of window.tflite;
    - [fetch], [arrayBuffer]: the network;
    - [image_onload]: assigning [src] to a new Image ends in onload ([true])
      or in onerror ([false]);
    - [tidy]: window.tf runs the preprocessing and returns the tensor, or
      throws;
    - [predict], [data]: the forward pass and the reading of its output;
    - [dispose]: the release of a tensor. *)
Record Host (W : Type) : Type := {
  window_tflite : W -> bool;
  setTimeout : nat -> W -> W;
  setWasmPath : string -> W -> res unit * W;
  fetch : string -> W -> res Response * W;
  arrayBuffer : Response -> W -> res Buffer * W;
  loadTFLiteModel : Buffer -> W -> res Handle * W;
  image_onload : string -> W -> bool * W;
  window_tf : W -> bool;
  tidy : tf.Tensor -> W -> res unit * W;
  predict : Handle -> tf.Tensor -> W -> res OutTensor * W;
  data : OutTensor -> W -> res (list Q) * W;
  dispose : tf.Tensor -> W -> res unit * W
}.

(** ** State and the monad *)

(** The static fields of [MLService], the world, and the log (newest first). *)
Record St (W : Type) : Type := {
  model : option Handle;
  labels : list string;
  world : W;
  log : list Event
}.

Definition M (W A : Type) : Type := St W -> res A * St W.

Section Monad.
Context {W : Type}.

Definition ret {A} (a : A) : M W A := fun s => (Ok a, s).

Definition throw {A} (e : exn) : M W A := fun s => (Throw e, s).

Definition bind {A B} (m : M W A) (k : A -> M W B) : M W B :=
  fun s =>
    match m s with
    | (Ok a, s') => k a s'
    | (Throw e, s') => (Throw e, s')
    end.

(** try { m } catch (error) { h error } *)
Definition try_catch {A} (m : M W A) (h : exn -> M W A) : M W A :=
  fun s =>
    match m s with
    | (Ok a, s') => (Ok a, s')
    | (Throw e, s') => h e s'
    end.

(** try { m } finally { f }: [f] runs on both exits; if it throws, its
    exception replaces the completion of [m]. *)
Definition try_finally {A} (m : M W A) (f : M W unit) : M W A :=
  fun s =>
    match m s with
    | (r, s') =>
        match f s' with
        | (Ok _, s'') => (r, s'')
        | (Throw e, s'') => (Throw e, s'')
        end
    end.

Definition emit (e : Event) : M W unit :=
  fun s => (Ok tt, {| model := model s; labels := labels s; world := world s;
                      log := e :: log s |}).

(** A host call that may throw: the world moves on, the call is logged. *)
Definition call {A} (f : W -> res A * W) (ev : res A -> Event) : M W A :=
  fun s =>
    match f (world s) with
    | (r, w') =>
        (r, {| model := model s; labels := labels s; world := w';
               log := ev r :: log s |})
    end.

(** A host interaction that settles with a value and cannot throw. *)
Definition ask {A} (f : W -> A * W) (ev : A -> Event) : M W A :=
  fun s =>
    match f (world s) with
    | (a, w') =>
        (Ok a, {| model := model s; labels := labels s; world := w';
                  log := ev a :: log s |})
    end.

(** await new Promise(resolve => setTimeout(resolve, ms)) *)
Definition sleep (f : nat -> W -> W) (ms : nat) : M W unit :=
  fun s => (Ok tt, {| model := model s; labels := labels s;
                      world := f ms (world s); log := EvSleep ms :: log s |}).

(** Reading a global of [window]. *)
Definition read (f : W -> bool) (ev : bool -> Event) : M W bool :=
  fun s => (Ok (f (world s)),
            {| model := model s; labels := labels s; world := world s;
               log := ev (f (world s)) :: log s |}).

Definition get_model : M W (option Handle) := fun s => (Ok (model s), s).

Definition set_model (h : Handle) : M W unit :=
  fun s => (Ok tt, {| model := Some h; labels := labels s; world := world s;
                      log := log s |}).

Definition get_labels : M W (list string) := fun s => (Ok (labels s), s).

End Monad.

Notation "x <- m ;; k" := (bind m (fun x => k))
  (at level 61, m at next level, right associativity).
Notation "m ;;; k" := (bind m (fun _ => k))
  (at level 61, right associativity).

(** ** Numbers *)

(** [p > m] on numbers. *)
Definition Qgtb (p m : Q) : bool := negb (Qle_bool p m).

(** [Math.round]: the nearest integer, a half rounding towards plus
    infinity. *)
Definition Math_round (x : Q) : Z := Qfloor (x + (1 # 2))%Q.

(** ** The service *)

(** The value a classification resolves to.  [label] is [None] where the
    JavaScript expression [this.labels[k]] would be [undefined]. *)
Record Classification : Type := {
  label : option string;
  confidence : Z
}.

Definition TFLITE_VERSION : string := "0.0.1-alpha.10".

Module MLService.

(** The initialiser of the static field [labels]. *)
Definition labels_init : list string :=
  ["Coffee Rust"; "Maize Streak"; "Wheat Rust"; "Healthy"].

(** The class just after its definition is evaluated, in world [w]. *)
Definition init {W} (w : W) : St W :=
  {| model := None; labels := labels_init; world := w; log := [] |}.

(** The default value of the parameter [modelUrl]. *)
Definition default_modelUrl : string :=
  "https://storage.googleapis.com/tfjs-models/tflite/mobilenet_v1_1.0_224_quant.tflite".

Definition wasm_path : string :=
  ("https://cdn.jsdelivr.net/npm/@tensorflow/tfjs-tflite@" ++ TFLITE_VERSION ++ "/dist/")%string.

(** The callback handed to [tf.tidy]. *)
Definition preprocess (img : Image) : tf.Tensor :=
  let tfImg := tf.fromPixels img in
  let resized := tf.resizeBilinear tfImg (224, 224) in
  let expanded := tf.expandDims resized 0 in
  tf.sub (tf.div (tf.toFloat expanded) (255 # 2)%Q) 1%Q.

(** The for loop over [probabilities], entered at index [i] with the current
    [maxProb] and [maxIndex]. *)
Fixpoint scan (probabilities : list Q) (i : nat) (maxProb : Q) (maxIndex : nat)
  : Q * nat :=
  match probabilities with
  | [] => (maxProb, maxIndex)
  | p :: rest =>
      if Qgtb p maxProb then scan rest (S i) p i
      else scan rest (S i) maxProb maxIndex
  end.

(** The fallback object of the catch block. *)
Definition fallback : Classification :=
  {| label := Some "Healthy"; confidence := 0%Z |}.

Section Methods.
Context {W : Type}.
Variable host : Host W.

Definition loadModel (modelUrl : option string) : M W Handle :=
  let modelUrl := match modelUrl with Some u => u | None => default_modelUrl end in
  cached <- get_model ;;
  match cached with
  | Some h => ret h
  | None =>
      try_catch
        (present <- read (window_tflite host) EvWindowTflite ;;
         (if negb present then
            sleep (setTimeout host) 500 ;;;
            again <- read (window_tflite host) EvWindowTflite ;;
            if negb again
            then throw (Error "TFLite library not loaded from CDN")
            else ret tt
          else ret tt) ;;;
         call (setWasmPath host wasm_path) (EvSetWasmPath wasm_path) ;;;
         emit (EvConsoleLog "Fetching TFLite model data...") ;;;
         response <- call (fetch host modelUrl) (EvFetch modelUrl) ;;
         (if negb (ok response)
          then throw (Error ("Failed to fetch model: " ++ statusText response)%string)
          else ret tt) ;;;
         modelBuffer <- call (arrayBuffer host response) (EvArrayBuffer response) ;;
         emit (EvConsoleLog "Model data fetched, initializing runner...") ;;;
         h <- call (loadTFLiteModel host modelBuffer) (EvLoadTFLiteModel modelBuffer) ;;
         set_model h ;;;
         emit (EvConsoleLog "Model loaded successfully") ;;;
         ret h)
        (fun error =>
           emit (EvConsoleError "Failed to load TFLite model:" error) ;;;
           throw error)
  end.

Definition classifyImage (imageSrc : string) : M W Classification :=
  try_catch
    (cached <- get_model ;;
     match cached with
     | Some _ => ret tt
     | None => loadModel None ;;; ret tt
     end ;;;
     loaded <- ask (image_onload host imageSrc) (EvImage imageSrc) ;;
     (if loaded then ret tt
      else throw (Error "Failed to load image for classification")) ;;;
     let img : Image := imageSrc in
     tfjs <- read (window_tf host) EvWindowTf ;;
     (if negb tfjs then throw (Error "TFJS not loaded") else ret tt) ;;;
     let tensor := preprocess img in
     call (tidy host tensor) (EvTidy tensor) ;;;
     try_finally
       (this_model <- get_model ;;
        match this_model with
        | None => throw (Error "TypeError: Cannot read properties of null (reading 'predict')")
        | Some m =>
            outputTensor <- call (predict host m tensor) (EvPredict m tensor) ;;
            probabilities <- call (data host outputTensor) (EvData outputTensor) ;;
            let '(maxProb, maxIndex) := scan probabilities 0%nat 0%Q 0%nat in
            this_labels <- get_labels ;;
            let label := nth_error this_labels (Nat.modulo maxIndex (List.length this_labels)) in
            ret {| label := label;
                   confidence := Math_round (maxProb * 100)%Q |}
        end)
       (call (dispose host tensor) (EvDispose tensor)))
    (fun error =>
       emit (EvConsoleError "Inference error:" error) ;;;
       ret fallback).

End Methods.

End MLService.

(** ** Sequences of calls *)

(** A call a client of the class can make. *)
Inductive Op : Type :=
| OpLoadModel (modelUrl : option string)
| OpClassifyImage (imageSrc : string).

Section Runs.
Context {W : Type}.
Variable host : Host W.

Definition run_op (o : Op) (s : St W) : St W :=
  match o with
  | OpLoadModel u => snd (MLService.loadModel host u s)
  | OpClassifyImage src => snd (MLService.classifyImage host src s)
  end.

Definition run_ops (ops : list Op) (s : St W) : St W :=
  fold_left (fun s o => run_op o s) ops s.

(** The states the class can be in: those some sequence of calls leads to
    from the initial one. *)
Definition reachable (s : St W) : Prop :=
  exists w ops, s = run_ops ops (MLService.init w).

End Runs.

Definition is_classify (o : Op) : bool :=
  match o with OpClassifyImage _ => true | OpLoadModel _ => false end.

(** ** Reading the log *)

Definition count (p : Event -> bool) (evs : list Event) : nat :=
  List.length (filter p evs).

Definition is_dispose (e : Event) : bool :=
  match e with EvDispose _ _ => true | _ => false end.

(** The input tensor came into existence: [tf.tidy] returned it. *)
Definition is_alloc (e : Event) : bool :=
  match e with EvTidy _ (Ok _) => true | _ => false end.

Definition is_predict (e : Event) : bool :=
  match e with EvPredict _ _ _ => true | _ => false end.

Definition is_fetch (e : Event) : bool :=
  match e with EvFetch _ _ => true | _ => false end.

(** The runtime was asked to build a model, whatever came of it. *)
Definition is_load_call (e : Event) : bool :=
  match e with EvLoadTFLiteModel _ _ => true | _ => false end.

(** The runtime built a model. *)
Definition is_model_built (e : Event) : bool :=
  match e with EvLoadTFLiteModel _ (Ok _) => true | _ => false end.

(** Any host interaction that belongs to the load step. *)
Definition is_load_step (e : Event) : bool :=
  match e with
  | EvWindowTflite _ | EvSleep _ | EvSetWasmPath _ _ | EvFetch _ _
  | EvArrayBuffer _ _ | EvLoadTFLiteModel _ _ => true
  | _ => false
  end.

(** A step of the pipeline that did not succeed. *)
Definition failed (e : Event) : bool :=
  match e with
  | EvSetWasmPath _ (Throw _) => true
  | EvFetch _ (Throw _) => true
  | EvFetch _ (Ok response) => negb (ok response)
  | EvArrayBuffer _ (Throw _) => true
  | EvLoadTFLiteModel _ (Throw _) => true
  | EvImage _ false => true
  | EvWindowTf false => true
  | EvTidy _ (Throw _) => true
  | EvPredict _ _ (Throw _) => true
  | EvData _ (Throw _) => true
  | EvDispose _ (Throw _) => true
  | _ => false
  end.

(** window.tflite was still missing when looked at again after the wait (the
    log is newest first, so the second look sits in front of the sleep). *)
Fixpoint runtime_unavailable (evs : list Event) : bool :=
  match evs with
  | [] => false
  | EvWindowTflite false :: (EvSleep _ :: _) as rest => true
  | _ :: rest => runtime_unavailable rest
  end.

Definition pipeline_failed (evs : list Event) : bool :=
  runtime_unavailable evs || existsb failed evs.

(** The forward pass of a call delivered the vector [v] and the call went on
    to its end: the data were read and the tensor release returned. *)
Definition yields (evs : list Event) (v : list Q) : Prop :=
  (exists o, In (EvData o (Ok v)) evs) /\
  (exists t, In (EvDispose t (Ok tt)) evs).

(** The forward pass was started straight after [tf.tidy] returned the tensor
    (the log is newest first). *)
Fixpoint predict_right_after_tidy (evs : list Event) : bool :=
  match evs with
  | [] => false
  | EvPredict _ _ _ :: (EvTidy _ (Ok _) :: _) as rest => true
  | _ :: rest => predict_right_after_tidy rest
  end.

(** The object the success path builds from the output vector [v] with the
    label table [lbls]. *)
Definition outcome_of (lbls : list string) (v : list Q) : Classification :=
  {| label := nth_error lbls
                (Nat.modulo (snd (MLService.scan v 0 0%Q 0)) (List.length lbls));
     confidence := Math_round (fst (MLService.scan v 0 0%Q 0) * 100)%Q |}.

(** ** The words of the specification *)

(** [i] is the argmax of [v], ties resolved to the lowest index. *)
Definition is_argmax_first (v : list Q) (i : nat) : Prop :=
  (i < List.length v)%nat /\
  (forall j, (j < List.length v)%nat -> (nth j v 0 <= nth i v 0)%Q) /\
  (forall j, (j < i)%nat -> (nth j v 0 < nth i v 0)%Q).

(** [m] is the maximum of [v]. *)
Definition is_max (v : list Q) (m : Q) : Prop :=
  (exists x, In x v /\ (x == m)%Q) /\ (forall x, In x v -> (x <= m)%Q).

(** ** Fake runtimes, for running the service on concrete inputs *)

Record Fake : Type := {
  tflite_at_start : bool;
  tflite_after_wait : bool;
  fetch_status : bool;
  first_build_throws : bool;
  image_decodes : bool;
  output : list Q
}.

(** The world of a fake runtime: has the wait elapsed, and how many models
    the runtime was asked to build. *)
Definition FakeWorld : Type := bool * nat.

Definition fake (c : Fake) : Host FakeWorld :=
  {| window_tflite := fun w : FakeWorld => if fst w then tflite_after_wait c else tflite_at_start c;
     setTimeout := fun _ (w : FakeWorld) => (true, snd w);
     setWasmPath := fun _ (w : FakeWorld) => (Ok tt, w);
     fetch := fun _ (w : FakeWorld) =>
       (Ok {| ok := fetch_status c;
              statusText := if fetch_status c then "OK" else "Not Found";
              body_id := 0 |}, w);
     arrayBuffer := fun _ (w : FakeWorld) => (Ok [], w);
     loadTFLiteModel := fun _ (w : FakeWorld) =>
       (if first_build_throws c && Nat.eqb (snd w) 0
        then Throw (Error "Failed to create TFLiteWebModelRunner")
        else Ok 1%nat,
        (fst w, S (snd w)));
     image_onload := fun _ (w : FakeWorld) => (image_decodes c, w);
     window_tf := fun _ : FakeWorld => true;
     tidy := fun _ (w : FakeWorld) => (Ok tt, w);
     predict := fun _ _ (w : FakeWorld) => (Ok 0%nat, w);
     data := fun _ (w : FakeWorld) => (Ok (output c), w);
     dispose := fun _ (w : FakeWorld) => (Ok tt, w) |}.

(** Everything works and the model answers [v]. *)
Definition working (v : list Q) : Fake :=
  {| tflite_at_start := true; tflite_after_wait := true; fetch_status := true;
     first_build_throws := false; image_decodes := true; output := v |}.

(** The CDN script never arrives. *)
Definition no_runtime : Fake :=
  {| tflite_at_start := false; tflite_after_wait := false; fetch_status := true;
     first_build_throws := false; image_decodes := true; output := [] |}.

(** The model URL answers 404. *)
Definition not_found : Fake :=
  {| tflite_at_start := true; tflite_after_wait := true; fetch_status := false;
     first_build_throws := false; image_decodes := true; output := [] |}.

(** The first attempt to build the model throws, later ones succeed. *)
Definition flaky_build (v : list Q) : Fake :=
  {| tflite_at_start := true; tflite_after_wait := true; fetch_status := true;
     first_build_throws := true; image_decodes := true; output := v |}.

(** The picture cannot be decoded. *)
Definition bad_image : Fake :=
  {| tflite_at_start := true; tflite_after_wait := true; fetch_status := true;
     first_build_throws := false; image_decodes := false; output := [] |}.

Definition start : St FakeWorld := MLService.init (false, 0).

(** ** More ways of reading the log *)

Definition is_sleep (e : Event) : bool :=
  match e with EvSleep _ => true | _ => false end.

(** Host interactions of the part of [classifyImage] that follows the load
    step: image, window.tf, tensor, forward pass, release. *)
Definition is_inference_step (e : Event) : bool :=
  match e with
  | EvImage _ _ | EvWindowTf _ | EvTidy _ _ | EvPredict _ _ _ | EvData _ _
  | EvDispose _ _ => true
  | _ => false
  end.

(** The console.error of the catch block of [classifyImage]. *)
Definition is_inference_error (e : Event) : bool :=
  match e with
  | EvConsoleError msg _ => String.eqb msg "Inference error:"
  | _ => false
  end.

(** ** JavaScript strings and arrays, as the application uses them

    Strings are sequences of bytes.  [toLowerCase] maps the ASCII capitals and
    leaves every other byte alone, which is what JavaScript does on the ASCII
    strings it is applied to here (the label table and the English names of
    the diseases). *)

Definition toLowerCase_char (c : ascii) : ascii :=
  let n := nat_of_ascii c in
  if (65 <=? n) && (n <=? 90) then ascii_of_nat (n + 32) else c.

Fixpoint toLowerCase (s : string) : string :=
  match s with
  | EmptyString => EmptyString
  | String c rest => String (toLowerCase_char c) (toLowerCase rest)
  end.

(** [s.includes(sub)] *)
Fixpoint includes (s sub : string) : bool :=
  String.prefix sub s ||
  match s with
  | EmptyString => false
  | String _ rest => includes rest sub
  end.

(** [array[k]] for a number [k] that is an integer: [None] stands for
    undefined. *)
Definition array_get {A} (l : list A) (k : Z) : option A :=
  if (k <? 0)%Z then None else nth_error l (Z.to_nat k).

(** [n.toString()] for an integer. *)
Definition Number_toString (n : Z) : string :=
  DecimalString.NilZero.string_of_int (Z.to_int n).

(** ** constants.ts *)

Module constants.

Inductive Language : Type := am | en.

(** [Record<Language, string>] *)
Definition Localized : Type := Language -> string.

Definition localized (a e : string) : Localized :=
  fun l => match l with am => a | en => e end.

Record Disease : Type := {
  id : string;
  name : Localized;
  crop : string;
  symptoms : Localized;
  treatment : Localized;
  prevention : Localized
}.

Definition mockDiseases : list Disease :=
  [ {| id := "coffee_rust";
       crop := "Coffee";
       name := localized "የቡና ቅጠል ዝገት" "Coffee Leaf Rust";
       symptoms := localized
         "በቅጠሉ ስር ቢጫ ወይም ብርቱካናማ ነጠብጣቦች ይታያሉ።"
         "Yellow or orange powdery spots appear on the underside of leaves.";
       treatment := localized
         "የተጎዱ ቅጠሎችን ያስወግዱ። ኦርጋኒክ ፈንገስ ማጥፊያ ይጠቀሙ።"
         "Remove infected leaves. Apply organic copper-based fungicides.";
       prevention := localized
         "ጥሩ የአየር ዝውውር እንዲኖር ቡናውን ይገጥግጡ።"
         "Prune coffee trees to ensure good air circulation." |};
    {| id := "maize_streak";
       crop := "Maize";
       name := localized "የበቆሎ መስመር ቫይረስ" "Maize Streak Virus";
       symptoms := localized
         "በቅጠሎች ላይ ረጅም ነጭ ወይም ቢጫ መስመሮች ይታያሉ።"
         "Long white or yellow streaks along the leaf veins.";
       treatment := localized
         "በሽታው ያለባቸውን ተክሎች ነቅሎ ማቃጠል።"
         "Uproot and burn infected plants immediately.";
       prevention := localized
         "ተከላካይ የሆኑ ዝርያዎችን ይጠቀሙ።"
         "Use resistant maize varieties and control leafhoppers." |};
    {| id := "wheat_rust";
       crop := "Wheat";
       name := localized "የስንዴ ዝገት" "Wheat Rust";
       symptoms := localized
         "በቅጠሎች እና በግንድ ላይ ቀይ ወይም ቡናማ ነጠብጣቦች።"
         "Reddish-brown pustules on leaves and stems.";
       treatment := localized
         "ፈንገስ ማጥፊያዎችን በወቅቱ መጠቀም።"
         "Apply appropriate fungicides early in the infection cycle.";
       prevention := localized
         "ዝገትን የሚቋቋሙ የስንዴ ዝርያዎችን መዝራት።"
         "Plant rust-resistant wheat varieties and rotate crops." |} ].

End constants.

(** ** App.tsx: the handlers of the App component

    The React state is a record; a setter replaces its field.  A handler runs
    from its first statement to its last, awaits included, with no other
    handler in between.  [fetchExpertAdvice] is called without await as the
    last statement of its callers and cannot throw, so it is run to its end in
    place: the state once everything has settled is the same. *)

Module App.

Module Screen.
Inductive t : Type := splash | home | camera | result | history | about | settings.
End Screen.

Module HistoryItem.
Record t : Type := {
  id : string;
  date : string;
  diseaseId : string;
  image : string;
  crop : string;
  confidence : option Z
}.
End HistoryItem.

(** The useState cells of the component. *)
Module State.
Record t : Type := {
  screen : Screen.t;
  lang : constants.Language;
  capturedImage : option string;
  diagnosis : option constants.Disease;
  confidence : Z;
  isDiagnosing : bool;
  expertAdvice : string;
  history : list HistoryItem.t
}.
End State.

(** What the handlers ask of the browser besides the classifier, with the
    answer. *)
Inductive Call : Type :=
| CallRandom (x : Q)
| CallDateNow (ms : Z)
| CallLocaleDate (s : string)
| CallOnLine (online : bool)
| CallGoogleGenAI (apiKey : string) (r : res unit)
| CallGenerateContent (model contents : string) (r : res (option string))
| CallConsoleError (msg : string) (e : exn).

(** The browser as the component sees it: the classifier's host [ml], and
    - [Math_random], [Date_now], [toLocaleDateString], [navigator_onLine];
    - [GEMINI_API_KEY]: process.env.GEMINI_API_KEY, if defined;
    - [GoogleGenAI]: the constructor, given the key;
    - [generateContent]: the request, given model and contents; the answer
      is the [text] of the response, if it has one. *)
Record Browser (W : Type) : Type := {
  ml : Host W;
  Math_random : W -> Q * W;
  Date_now : W -> Z * W;
  toLocaleDateString : W -> string * W;
  navigator_onLine : W -> bool;
  GEMINI_API_KEY : option string;
  GoogleGenAI : string -> W -> res unit * W;
  generateContent : string -> string -> W -> res (option string) * W
}.

(** The component's state, the classifier's state (with the world), and the
    calls made so far, newest first. *)
Record AppSt (W : Type) : Type := {
  ui : State.t;
  svc : St W;
  calls : list Call
}.

(** The state when the component has mounted and the splash screen is over,
    with nothing stored. *)
Definition mounted {W} (w : W) : AppSt W :=
  {| ui := {| State.screen := Screen.home;
              State.lang := constants.am;
              State.capturedImage := None;
              State.diagnosis := None;
              State.confidence := 0;
              State.isDiagnosing := false;
              State.expertAdvice := "";
              State.history := [] |};
     svc := MLService.init w;
     calls := [] |}.

Definition AM (W A : Type) : Type := AppSt W -> res A * AppSt W.

Section AppMonad.
Context {W : Type}.

(** Awaiting a method of the classifier. *)
Definition lift {A} (m : M W A) : AM W A :=
  fun s =>
    match m (svc s) with
    | (r, svc') => (r, {| ui := ui s; svc := svc'; calls := calls s |})
    end.

Definition ret {A} (a : A) : AM W A := fun s => (Ok a, s).

Definition throw {A} (e : exn) : AM W A := fun s => (Throw e, s).

Definition bind {A B} (m : AM W A) (k : A -> AM W B) : AM W B :=
  fun s =>
    match m s with
    | (Ok a, s') => k a s'
    | (Throw e, s') => (Throw e, s')
    end.

Definition try_catch {A} (m : AM W A) (h : exn -> AM W A) : AM W A :=
  fun s =>
    match m s with
    | (Ok a, s') => (Ok a, s')
    | (Throw e, s') => h e s'
    end.

(** A setter of the React state. *)
Definition set (f : State.t -> State.t) : AM W unit :=
  fun s => (Ok tt, {| ui := f (ui s); svc := svc s; calls := calls s |}).

Definition note (c : Call) : AM W unit :=
  fun s => (Ok tt, {| ui := ui s; svc := svc s; calls := c :: calls s |}).

Definition with_world (s : AppSt W) (w : W) (c : Call) : AppSt W :=
  {| ui := ui s;
     svc := {| model := model (svc s); labels := labels (svc s); world := w;
               log := log (svc s) |};
     calls := c :: calls s |}.

(** A browser call that may throw. *)
Definition call {A} (f : W -> res A * W) (c : res A -> Call) : AM W A :=
  fun s =>
    match f (world (svc s)) with
    | (r, w') => (r, with_world s w' (c r))
    end.

(** A browser call that cannot throw. *)
Definition ask {A} (f : W -> A * W) (c : A -> Call) : AM W A :=
  fun s =>
    match f (world (svc s)) with
    | (a, w') => (Ok a, with_world s w' (c a))
    end.

(** Reading a property of the browser. *)
Definition read (f : W -> bool) (c : bool -> Call) : AM W bool :=
  fun s => (Ok (f (world (svc s))),
            with_world s (world (svc s)) (c (f (world (svc s))))).

End AppMonad.

Declare Scope app_scope.
Notation "x <- m ;; k" := (bind m (fun x => k))
  (at level 61, m at next level, right associativity) : app_scope.
Notation "m ;;; k" := (bind m (fun _ => k))
  (at level 61, right associativity) : app_scope.
Local Open Scope app_scope.

Definition setScreen {W} (x : Screen.t) : AM W unit :=
  set (fun u => {| State.screen := x;
                   State.lang := State.lang u;
                   State.capturedImage := State.capturedImage u;
                   State.diagnosis := State.diagnosis u;
                   State.confidence := State.confidence u;
                   State.isDiagnosing := State.isDiagnosing u;
                   State.expertAdvice := State.expertAdvice u;
                   State.history := State.history u |}).

Definition setCapturedImage {W} (x : option string) : AM W unit :=
  set (fun u => {| State.screen := State.screen u;
                   State.lang := State.lang u;
                   State.capturedImage := x;
                   State.diagnosis := State.diagnosis u;
                   State.confidence := State.confidence u;
                   State.isDiagnosing := State.isDiagnosing u;
                   State.expertAdvice := State.expertAdvice u;
                   State.history := State.history u |}).

Definition setDiagnosis {W} (x : option constants.Disease) : AM W unit :=
  set (fun u => {| State.screen := State.screen u;
                   State.lang := State.lang u;
                   State.capturedImage := State.capturedImage u;
                   State.diagnosis := x;
                   State.confidence := State.confidence u;
                   State.isDiagnosing := State.isDiagnosing u;
                   State.expertAdvice := State.expertAdvice u;
                   State.history := State.history u |}).

Definition setConfidence {W} (x : Z) : AM W unit :=
  set (fun u => {| State.screen := State.screen u;
                   State.lang := State.lang u;
                   State.capturedImage := State.capturedImage u;
                   State.diagnosis := State.diagnosis u;
                   State.confidence := x;
                   State.isDiagnosing := State.isDiagnosing u;
                   State.expertAdvice := State.expertAdvice u;
                   State.history := State.history u |}).

Definition setIsDiagnosing {W} (x : bool) : AM W unit :=
  set (fun u => {| State.screen := State.screen u;
                   State.lang := State.lang u;
                   State.capturedImage := State.capturedImage u;
                   State.diagnosis := State.diagnosis u;
                   State.confidence := State.confidence u;
                   State.isDiagnosing := x;
                   State.expertAdvice := State.expertAdvice u;
                   State.history := State.history u |}).

Definition setExpertAdvice {W} (x : string) : AM W unit :=
  set (fun u => {| State.screen := State.screen u;
                   State.lang := State.lang u;
                   State.capturedImage := State.capturedImage u;
                   State.diagnosis := State.diagnosis u;
                   State.confidence := State.confidence u;
                   State.isDiagnosing := State.isDiagnosing u;
                   State.expertAdvice := x;
                   State.history := State.history u |}).

(** [setHistory(prev => f prev)] *)
Definition setHistory {W} (f : list HistoryItem.t -> list HistoryItem.t) : AM W unit :=
  set (fun u => {| State.screen := State.screen u;
                   State.lang := State.lang u;
                   State.capturedImage := State.capturedImage u;
                   State.diagnosis := State.diagnosis u;
                   State.confidence := State.confidence u;
                   State.isDiagnosing := State.isDiagnosing u;
                   State.expertAdvice := State.expertAdvice u;
                   State.history := f (State.history u) |}).

(** The template string sent to the generative model. *)
Definition advice_prompt (disease : constants.Disease) : string :=
  ("As an agricultural expert for Ethiopian farmers, provide detailed treatment and prevention advice for "
   ++ constants.name disease constants.en ++ " in " ++ constants.crop disease
   ++ ". Use simple language. Provide the response in both English and Amharic. Focus on low-cost and organic solutions suitable for smallholder farmers.")%string.

Definition advice_unavailable : string :=
  "Could not fetch expert advice at this time.".

(** The predicate of [mockDiseases.find] in [handleCapture]. *)
Definition name_includes (label : string) (d : constants.Disease) : bool :=
  includes (toLowerCase (constants.name d constants.en)) (toLowerCase label).

Section Handlers.
Context {W : Type}.
Variable browser : Browser W.

Definition fetchExpertAdvice (disease : constants.Disease) : AM W unit :=
  try_catch
    (let apiKey := match GEMINI_API_KEY browser with
                   | Some k => k
                   | None => ""
                   end in
     call (GoogleGenAI browser apiKey) (CallGoogleGenAI apiKey) ;;;
     text <- call (generateContent browser "gemini-1.5-flash-latest"
                     (advice_prompt disease))
               (CallGenerateContent "gemini-1.5-flash-latest" (advice_prompt disease)) ;;
     setExpertAdvice (match text with Some t => t | None => "" end))
    (fun error =>
       note (CallConsoleError "Gemini Error:" error) ;;;
       setExpertAdvice advice_unavailable).

Definition handleCapture (image : string) : AM W unit :=
  setCapturedImage (Some image) ;;;
  setIsDiagnosing true ;;;
  setScreen Screen.result ;;;
  setExpertAdvice "" ;;;
  try_catch
    (result <- lift (MLService.classifyImage (ml browser) image) ;;
     found <- match label result with
              | Some l => ret (find (name_includes l) constants.mockDiseases)
              | None =>
                  throw (Error "TypeError: Cannot read properties of undefined (reading 'toLowerCase')")
              end ;;
     disease <- match found with
                | Some d => ret (Some d)
                | None =>
                    x <- ask (Math_random browser) CallRandom ;;
                    ret (array_get constants.mockDiseases
                           (Qfloor (x * inject_Z (Z.of_nat (List.length constants.mockDiseases)))))
                end ;;
     setDiagnosis disease ;;;
     setConfidence (if (confidence result =? 0)%Z then 98%Z else confidence result) ;;;
     setIsDiagnosing false ;;;
     now <- ask (Date_now browser) CallDateNow ;;
     today <- ask (toLocaleDateString browser) CallLocaleDate ;;
     match disease with
     | None =>
         throw (Error "TypeError: Cannot read properties of undefined (reading 'id')")
     | Some d =>
         let newItem :=
           {| HistoryItem.id := Number_toString now;
              HistoryItem.date := today;
              HistoryItem.diseaseId := constants.id d;
              HistoryItem.image := image;
              HistoryItem.crop := constants.crop d;
              HistoryItem.confidence := Some (confidence result) |} in
         setHistory (fun prev => newItem :: prev) ;;;
         online <- read (navigator_onLine browser) CallOnLine ;;
         if online then fetchExpertAdvice d else ret tt
     end)
    (fun error =>
       note (CallConsoleError "Diagnosis Error:" error) ;;;
       setIsDiagnosing false ;;;
       setDiagnosis (nth_error constants.mockDiseases 0)).

Definition viewHistoryItem (item : HistoryItem.t) : AM W unit :=
  match find (fun d => String.eqb (constants.id d) (HistoryItem.diseaseId item))
          constants.mockDiseases with
  | Some disease =>
      setCapturedImage (Some (HistoryItem.image item)) ;;;
      setDiagnosis (Some disease) ;;;
      setScreen Screen.result ;;;
      setIsDiagnosing false ;;;
      setExpertAdvice "" ;;;
      online <- read (navigator_onLine browser) CallOnLine ;;
      if online then fetchExpertAdvice disease else ret tt
  | None => ret tt
  end.

End Handlers.

End App.

(** A thing the user does on the screens. *)
Inductive Action : Type :=
| Capture (image : string)
| ViewItem (item : App.HistoryItem.t).

Definition act {W} (browser : App.Browser W) (a : Action) (s : App.AppSt W)
  : App.AppSt W :=
  match a with
  | Capture image => snd (App.handleCapture browser image s)
  | ViewItem item => snd (App.viewHistoryItem browser item s)
  end.

Definition acts {W} (browser : App.Browser W) (l : list Action) (s : App.AppSt W)
  : App.AppSt W :=
  fold_left (fun s a => act browser a s) l s.

(** The history list can name the disease of [item]: the lookup by id that the
    history screen and [viewHistoryItem] make succeeds. *)
Definition resolves (item : App.HistoryItem.t) : Prop :=
  exists d, In d constants.mockDiseases /\
            constants.id d = App.HistoryItem.diseaseId item.

(** A browser for running the handlers on concrete inputs: the classifier's
    fake runtime, a fixed [Math.random] and clock, and a generative model that
    answers [advice] or, without one, rejects. *)
Definition fake_browser (c : Fake) (random : Q) (online : bool) (advice : option string)
  : App.Browser FakeWorld :=
  {| App.ml := fake c;
     App.Math_random := fun w : FakeWorld => (random, w);
     App.Date_now := fun w : FakeWorld => (1700000000000%Z, w);
     App.toLocaleDateString := fun w : FakeWorld => ("11/14/2023", w);
     App.navigator_onLine := fun _ : FakeWorld => online;
     App.GEMINI_API_KEY := None;
     App.GoogleGenAI := fun _ (w : FakeWorld) => (Ok tt, w);
     App.generateContent := fun _ _ (w : FakeWorld) =>
       (match advice with
        | Some t => Ok (Some t)
        | None => Throw (Error "Failed to fetch")
        end, w) |}.

Definition app_start : App.AppSt FakeWorld := App.mounted (false, 0).

(** ** Numbers as a typed array holds them

    The output of [predict] is read as a typed array of floats or integers.
    Besides the finite values, kept as exact rationals, a float array can
    hold the two infinities and NaN.  [scan_numbers] and [answer_of_numbers]
    are lines 83 to 98 of the service on such numbers; for the finite values
    of a 32-bit array the product by 100 is exact and cannot overflow. *)

Module Number.

Inductive t : Type :=
| Finite (x : Q)
| PosInfinity
| NegInfinity
| NaN.

Definition neg (a : t) : t :=
  match a with
  | Finite x => Finite (- x)%Q
  | PosInfinity => NegInfinity
  | NegInfinity => PosInfinity
  | NaN => NaN
  end.

(** [a > b]: false as soon as one side is NaN. *)
Definition gt (a b : t) : bool :=
  match a, b with
  | NaN, _ => false
  | _, NaN => false
  | Finite x, Finite y => Qgtb x y
  | Finite _, NegInfinity => true
  | Finite _, PosInfinity => false
  | PosInfinity, PosInfinity => false
  | PosInfinity, _ => true
  | NegInfinity, _ => false
  end.

(** An infinity times the finite [x]. *)
Definition scale (inf : t) (x : Q) : t :=
  match (x ?= 0)%Q with
  | Eq => NaN
  | Gt => inf
  | Lt => neg inf
  end.

(** [a * b] *)
Definition mul (a b : t) : t :=
  match a, b with
  | NaN, _ => NaN
  | _, NaN => NaN
  | Finite x, Finite y => Finite (x * y)%Q
  | Finite x, inf => scale inf x
  | inf, Finite y => scale inf y
  | PosInfinity, PosInfinity => PosInfinity
  | NegInfinity, NegInfinity => PosInfinity
  | PosInfinity, NegInfinity => NegInfinity
  | NegInfinity, PosInfinity => NegInfinity
  end.

(** [Math.round(a)]: the infinities and NaN are returned as they are. *)
Definition round (a : t) : t :=
  match a with
  | Finite x => Finite (inject_Z (Math_round x))
  | _ => a
  end.

(** [Number.isInteger(a)] *)
Definition isInteger (a : t) : bool :=
  match a with
  | Finite x => Qeq_bool x (inject_Z (Qfloor x))
  | _ => false
  end.

End Number.

(** The for loop of [classifyImage] over the numbers of a typed array. *)
Fixpoint scan_numbers (probabilities : list Number.t) (i : nat)
  (maxProb : Number.t) (maxIndex : nat) : Number.t * nat :=
  match probabilities with
  | [] => (maxProb, maxIndex)
  | p :: rest =>
      if Number.gt p maxProb then scan_numbers rest (S i) p i
      else scan_numbers rest (S i) maxProb maxIndex
  end.

(** The label and the confidence that lines 83 to 98 make of the array. *)
Definition answer_of_numbers (lbls : list string) (probabilities : list Number.t)
  : option string * Number.t :=
  let '(maxProb, maxIndex) :=
    scan_numbers probabilities 0 (Number.Finite 0) 0 in
  (nth_error lbls (Nat.modulo maxIndex (List.length lbls)),
   Number.round (Number.mul maxProb (Number.Finite 100))).

(** * Properties *)

(** ** Numbers *)

Lemma Qgtb_true (p m : Q) : Qgtb p m = true <-> (m < p)%Q.
Proof.
  unfold Qgtb. rewrite negb_true_iff, <- not_true_iff_false, Qle_bool_iff.
  split; [apply Qnot_le_lt | apply Qlt_not_le].
Qed.

Lemma Qgtb_false (p m : Q) : Qgtb p m = false <-> (p <= m)%Q.
Proof.
  unfold Qgtb. rewrite negb_false_iff. apply Qle_bool_iff.
Qed.

Lemma Math_round_le (x y : Q) : (x <= y)%Q -> (Math_round x <= Math_round y)%Z.
Proof.
  intros H. unfold Math_round. apply Qfloor_resp_le.
  apply Qplus_le_compat; [exact H | apply Qle_refl].
Qed.

Lemma Math_round_eq (x y : Q) : (x == y)%Q -> Math_round x = Math_round y.
Proof.
  intros H. unfold Math_round. apply Qfloor_comp. rewrite H. reflexivity.
Qed.

(** ** The argmax loop *)

(** What one run of the loop from index [i] establishes. *)
Lemma scan_inv (rest : list Q) :
  forall (i : nat) (m : Q) (k : nat) (m' : Q) (k' : nat),
    MLService.scan rest i m k = (m', k') ->
    (forall x, In x rest -> (x <= m')%Q) /\
    (m <= m')%Q /\
    ((m' = m /\ k' = k) \/
     (exists j, j < List.length rest /\ k' = i + j /\ m' = nth j rest 0%Q /\
                (m < m')%Q /\
                (forall j', j' < j -> (nth j' rest 0 < m')%Q))).
Proof.
  induction rest as [|p rest IH]; intros i m k m' k' H; simpl in H.
  - inversion H; subst. split; [intros x []|]. split; [apply Qle_refl|]. now left.
  - destruct (Qgtb p m) eqn:E.
    + apply Qgtb_true in E.
      destruct (IH _ _ _ _ _ H) as (Hall & Hle & Hcase).
      split.
      { intros x [<-|Hx]; auto. }
      split.
      { apply Qlt_le_weak. eapply Qlt_le_trans; eauto. }
      right. destruct Hcase as [[-> ->] | (j & Hj & -> & -> & Hlt & Hbefore)].
      * exists 0. simpl. repeat split; try lia; auto; intros; lia.
      * exists (S j). simpl. repeat split; try lia.
        { eapply Qlt_trans; eauto. }
        { intros [|j'] Hj'; [exact Hlt | apply Hbefore; lia]. }
    + apply Qgtb_false in E.
      destruct (IH _ _ _ _ _ H) as (Hall & Hle & Hcase).
      split.
      { intros x [<-|Hx]; auto. eapply Qle_trans; eauto. }
      split; [exact Hle|].
      destruct Hcase as [[-> ->] | (j & Hj & -> & -> & Hlt & Hbefore)].
      * now left.
      * right. exists (S j). simpl. repeat split; try lia; auto.
        intros [|j'] Hj'; [|apply Hbefore; lia].
        eapply Qle_lt_trans; eauto.
Qed.

(** With a positive element in the vector the loop ends on the first index of
    the maximum. *)
Lemma scan_positive (v : list Q) (m : Q) (k : nat) :
  MLService.scan v 0 0%Q 0 = (m, k) ->
  (exists x, In x v /\ (0 < x)%Q) ->
  is_argmax_first v k /\ m = nth k v 0%Q.
Proof.
  intros H (x & Hx & Hpos).
  destruct (scan_inv _ _ _ _ H) as (Hall & Hle & Hcase).
  destruct Hcase as [[-> ->] | (j & Hj & -> & -> & Hlt & Hbefore)].
  - exfalso. apply (Qlt_not_le _ _ Hpos). auto.
  - simpl. split; [|reflexivity]. repeat split; auto.
    intros j' Hj'. apply Hall. apply nth_In. exact Hj'.
Qed.

(** With no positive element the loop never updates its two variables. *)
Lemma scan_nonpositive (v : list Q) (m : Q) (k : nat) :
  MLService.scan v 0 0%Q 0 = (m, k) ->
  (forall x, In x v -> (x <= 0)%Q) ->
  m = 0%Q /\ k = 0.
Proof.
  intros H Hall0.
  destruct (scan_inv _ _ _ _ H) as (Hall & Hle & Hcase).
  destruct Hcase as [[-> ->] | (j & Hj & -> & -> & Hlt & Hbefore)]; [now split|].
  exfalso. apply (Qlt_not_le _ _ Hlt). apply Hall0. apply nth_In. exact Hj.
Qed.

Lemma scan_nonneg (v : list Q) (m : Q) (k : nat) :
  MLService.scan v 0 0%Q 0 = (m, k) -> (0 <= m)%Q.
Proof.
  intros H. destruct (scan_inv _ _ _ _ H) as (_ & Hle & _). exact Hle.
Qed.

(** The loop's [maxProb] is the maximum of the vector once that is not
    negative. *)
Lemma scan_max (v : list Q) (m : Q) (k : nat) (mx : Q) :
  MLService.scan v 0 0%Q 0 = (m, k) ->
  is_max v mx -> (0 <= mx)%Q -> (m == mx)%Q.
Proof.
  intros H ((x & Hx & Hxm) & Hub) Hnn.
  destruct (scan_inv _ _ _ _ H) as (Hall & Hle & Hcase).
  apply Qle_antisym.
  - destruct Hcase as [[-> _] | (j & Hj & _ & -> & _)]; [exact Hnn|].
    apply Hub. apply nth_In. exact Hj.
  - rewrite <- Hxm. auto.
Qed.

Lemma is_argmax_first_unique (v : list Q) (i k : nat) :
  is_argmax_first v i -> is_argmax_first v k -> i = k.
Proof.
  intros (Hi & Hmaxi & Hfirsti) (Hk & Hmaxk & Hfirstk).
  destruct (Nat.lt_trichotomy i k) as [Hlt | [Heq | Hgt]]; [|exact Heq|]; exfalso.
  - apply (Qlt_not_le _ _ (Hfirstk _ Hlt)). auto.
  - apply (Qlt_not_le _ _ (Hfirsti _ Hgt)). auto.
Qed.

(** ** Running the methods symbolically *)

Ltac unfold_service :=
  cbv [MLService.classifyImage MLService.loadModel bind try_catch try_finally
       call ask sleep read emit ret throw get_model set_model get_labels];
  cbn [model labels world log fst snd].

Ltac host_step :=
  match goal with
  | |- context [window_tflite ?h ?w] =>
      destruct (window_tflite h w) eqn:?
  | |- context [setWasmPath ?h ?p ?w] =>
      destruct (setWasmPath h p w) as [[[]|?] ?] eqn:?
  | |- context [fetch ?h ?u ?w] =>
      let r := fresh "response" in
      destruct (fetch h u w) as [[r|?] ?] eqn:?;
      [destruct (ok r) eqn:?|]
  | |- context [arrayBuffer ?h ?r ?w] =>
      destruct (arrayBuffer h r w) as [[?|?] ?] eqn:?
  | |- context [loadTFLiteModel ?h ?b ?w] =>
      destruct (loadTFLiteModel h b w) as [[?|?] ?] eqn:?
  | |- context [image_onload ?h ?i ?w] =>
      destruct (image_onload h i w) as [[|] ?] eqn:?
  | |- context [window_tf ?h ?w] =>
      destruct (window_tf h w) eqn:?
  | |- context [tidy ?h ?t ?w] =>
      destruct (tidy h t w) as [[[]|?] ?] eqn:?
  | |- context [predict ?h ?m ?t ?w] =>
      destruct (predict h m t w) as [[?|?] ?] eqn:?
  | |- context [data ?h ?o ?w] =>
      destruct (data h o w) as [[?|?] ?] eqn:?
  | |- context [dispose ?h ?t ?w] =>
      destruct (dispose h t w) as [[[]|?] ?] eqn:?
  | |- context [MLService.scan ?v ?i ?m ?k] =>
      destruct (MLService.scan v i m k) as [? ?] eqn:?
  end;
  cbn [model labels world log fst snd negb].

(** Split the run of a method on a state into its paths. *)
Ltac exec s :=
  let m := fresh "cached" in
  let lb := fresh "lbls" in
  let w := fresh "w" in
  let l := fresh "l" in
  destruct s as [m lb w l]; destruct m; cbn [model labels world log] in *;
  unfold_service; repeat host_step.


(** The events at the front of a log [big] that ends in [tail]. *)
Ltac prefix_of big tail :=
  match big with
  | tail => constr:(@nil Event)
  | ?e :: ?r => let r' := prefix_of r tail in constr:(e :: r')
  end.

(** Turn [H : e1 :: ... :: l = evs ++ l] into the value of [evs]. *)
Ltac read_log H :=
  match type of H with
  | ?big = ?evs ++ ?l =>
      let pre := prefix_of big l in
      let E := fresh "E" in
      assert (E : pre = evs) by (apply (app_inv_tail l); exact H);
      clear H; subst evs
  end.

(** Name the events a run added in a goal [big = ?evs ++ l /\ _]. *)
Ltac give_log :=
  match goal with
  | |- ?big = ?e ++ ?l /\ _ =>
      let pre := prefix_of big l in unify e pre; split; [reflexivity|]
  end.

(** Go through the events of a concrete log that a hypothesis [In e log]
    may stand for. *)
Ltac in_log :=
  repeat match goal with
    | H : In _ (_ :: _) |- _ => destruct H as [H|H]; [try discriminate H|]
    | H : In _ [] |- _ => destruct H
    end.

(** Rewrite [H] with the outcomes recorded while splitting the run. *)
Ltac use_outcomes H :=
  repeat match goal with
    | E : ?x = ?b |- _ =>
        tryif constr_eq E H then fail else
        match type of H with context [x] => rewrite E in H end
    end.

Ltac absurd_host :=
  match goal with
  | H : forall w, ?f w = ?b, E : ?f ?x = ?c |- _ =>
      rewrite H in E; discriminate E
  end.

(** ** The fallback contract *)

(** C1. [classifyImage] never throws: every run, from every state and on every
    host, completes with a value, and that value is the fallback object as
    soon as a step of the pipeline failed; in particular when no model is
    loaded and window.tflite never appears. *)
Theorem classifyImage_never_raises
  (W : Type) (host : Host W) (s : St W) (imageSrc : string) :
  exists r s' evs,
    MLService.classifyImage host imageSrc s = (Ok r, s') /\
    log s' = evs ++ log s /\
    (pipeline_failed evs = true -> r = MLService.fallback) /\
    (model s = None -> (forall w, window_tflite host w = false) ->
     r = MLService.fallback).
Proof.
  exec s.
  all: do 3 eexists; (split; [reflexivity|]); cbn [log]; give_log.
  all: split; [|intros; try discriminate; try reflexivity; absurd_host].
  all: try (intros _; reflexivity).
  all: unfold pipeline_failed; cbn [runtime_unavailable existsb failed orb];
    intros Hf; use_outcomes Hf; cbn in Hf; discriminate Hf.
Qed.

Lemma classifyImage_never_raises_witness :
  fst (MLService.classifyImage (fake no_runtime) "leaf.jpg" start)
  = Ok MLService.fallback.
Proof.
  destruct (classifyImage_never_raises (fake no_runtime) start "leaf.jpg")
    as (r & s' & evs & Hrun & _ & _ & Hnone).
  rewrite Hrun. cbn [fst]. f_equal.
  apply Hnone; [reflexivity | intros [[|] n]; reflexivity].
Defined.

(** ** What a completed forward pass is turned into *)

(** Every run completes with a value, adds events in front of the log, leaves
    the label table alone, and either answers the fallback or got a vector out
    of the forward pass. *)
Lemma classifyImage_completes
  (W : Type) (host : Host W) (s : St W) (imageSrc : string) :
  exists r s' evs,
    MLService.classifyImage host imageSrc s = (Ok r, s') /\
    log s' = evs ++ log s /\
    labels s' = labels s /\
    (r = MLService.fallback \/ exists v, yields evs v).
Proof.
  exec s.
  all: do 3 eexists; (split; [reflexivity|]); cbn [log labels]; give_log.
  all: split; [reflexivity|].
  all: try (left; reflexivity).
  all: right; eexists; split; eexists; simpl; eauto.
Qed.

(** A run whose forward pass delivered [v] answers [outcome_of] it. *)
Lemma classifyImage_yields
  (W : Type) (host : Host W) (s : St W) (imageSrc : string)
  (r : res Classification) (s' : St W) (evs : list Event) (v : list Q) :
  MLService.classifyImage host imageSrc s = (r, s') ->
  log s' = evs ++ log s ->
  yields evs v ->
  r = Ok (outcome_of (labels s) v).
Proof.
  intros Hrun Hlog [[o Hdata] [t Hdisp]]. revert Hrun Hlog.
  exec s; intros Hrun; inversion Hrun; subst; clear Hrun; cbn [log]; intros Hlog.
  all: read_log Hlog; in_log.
  all: match goal with H : EvData _ _ = EvData _ _ |- _ => inversion H; subst end.
  all: unfold outcome_of;
    match goal with H : MLService.scan _ _ _ _ = _ |- _ => rewrite H end;
    reflexivity.
Qed.

(** Looking a label up modulo the table length always finds one. *)
Lemma label_lookup (k : nat) :
  exists l,
    nth_error MLService.labels_init (Nat.modulo k (List.length MLService.labels_init))
    = Some l /\ In l MLService.labels_init.
Proof.
  pose proof (Nat.mod_upper_bound k 4 ltac:(discriminate)) as Hk.
  change (List.length MLService.labels_init) with 4.
  destruct (Nat.modulo k 4) as [|[|[|[|n]]]]; simpl; eauto 10. lia.
Qed.

(** ** The label table and the cached model across calls *)

Lemma loadModel_runs
  (W : Type) (host : Host W) (u : option string) (s : St W) :
  exists r s' evs,
    MLService.loadModel host u s = (r, s') /\
    log s' = evs ++ log s /\
    labels s' = labels s /\
    count is_dispose evs = 0 /\ count is_alloc evs = 0 /\
    (count is_model_built evs <= 1) /\
    (count is_model_built evs = 1 -> model s' <> None) /\
    (forall h, model s = Some h -> r = Ok h /\ s' = s /\ evs = []).
Proof.
  exec s.
  all: do 3 eexists; (split; [reflexivity|]); cbn [log labels model]; give_log.
  all: cbv [count filter is_dispose is_alloc is_model_built List.length].
  all: repeat split; try lia; try discriminate; try congruence.
Qed.

Lemma classifyImage_runs
  (W : Type) (host : Host W) (src : string) (s : St W) :
  exists evs,
    log (snd (MLService.classifyImage host src s)) = evs ++ log s /\
    labels (snd (MLService.classifyImage host src s)) = labels s /\
    count is_dispose evs = count is_alloc evs /\
    (count is_dispose evs <= 1) /\
    (forall t r, In (EvDispose t r) evs -> In (EvTidy t (Ok tt)) evs) /\
    (count is_model_built evs <= 1) /\
    (count is_model_built evs = 1 ->
     model (snd (MLService.classifyImage host src s)) <> None) /\
    (forall h, model s = Some h ->
       model (snd (MLService.classifyImage host src s)) = Some h /\
       count is_load_step evs = 0).
Proof.
  exec s.
  all: eexists; cbn [snd log labels model]; give_log.
  all: cbv [count filter is_dispose is_alloc is_model_built is_load_step List.length].
  all: repeat split; try lia; try discriminate; try congruence.
  all: intros; in_log;
    match goal with H : EvDispose _ _ = EvDispose _ _ |- _ => inversion H; subst end;
    simpl; auto 10.
Qed.

Lemma count_app (p : Event -> bool) (a b : list Event) :
  count p (a ++ b) = count p a + count p b.
Proof.
  unfold count. rewrite filter_app, length_app. reflexivity.
Qed.

Lemma count_built_le_load_step (evs : list Event) :
  count is_model_built evs <= count is_load_step evs.
Proof.
  unfold count. induction evs as [|e evs IH]; simpl; [lia|].
  destruct e as [| | | | |? [|]| | | | | | | |]; simpl; lia.
Qed.

(** One call, of either method. *)
Lemma run_op_spec (W : Type) (host : Host W) (o : Op) (s : St W) :
  exists evs,
    log (run_op host o s) = evs ++ log s /\
    labels (run_op host o s) = labels s /\
    count is_dispose evs = count is_alloc evs /\
    (count is_dispose evs <= if is_classify o then 1 else 0) /\
    (forall t r, In (EvDispose t r) evs -> In (EvTidy t (Ok tt)) evs) /\
    (count is_model_built evs <= 1) /\
    (count is_model_built evs = 1 -> model (run_op host o s) <> None) /\
    (forall h, model s = Some h ->
       model (run_op host o s) = Some h /\ count is_load_step evs = 0).
Proof.
  destruct o as [u | src]; cbn [run_op is_classify].
  - destruct (loadModel_runs host u s)
      as (r & s' & evs & Hrun & Hlog & Hlbl & Hd & Ha & Hb & Hm & Hc).
    rewrite Hrun. cbn [snd]. exists evs. repeat split; auto; try lia.
    + intros t r' Hin. exfalso.
      assert (Hpos : count is_dispose evs <> 0); [|lia].
      unfold count. clear - Hin. induction evs as [|e evs IH]; [destruct Hin|].
      destruct Hin as [-> | Hin]; simpl; [discriminate|].
      destruct (is_dispose e); simpl; auto.
    + destruct (Hc h H) as (_ & -> & _). exact H.
    + destruct (Hc h H) as (_ & _ & ->). reflexivity.
  - destruct (classifyImage_runs host src s)
      as (evs & Hlog & Hlbl & Hd & Hd1 & Hsame & Hb & Hm & Hc).
    exists evs. repeat split; auto; intros; eapply Hc; eassumption.
Qed.

Lemma run_ops_cons (W : Type) (host : Host W) (o : Op) (ops : list Op) (s : St W) :
  run_ops host (o :: ops) s = run_ops host ops (run_op host o s).
Proof. reflexivity. Qed.

(** Any sequence of calls. *)
Lemma run_ops_spec (W : Type) (host : Host W) (ops : list Op) :
  forall s : St W,
  exists evs,
    log (run_ops host ops s) = evs ++ log s /\
    labels (run_ops host ops s) = labels s /\
    count is_dispose evs = count is_alloc evs /\
    (count is_dispose evs <= List.length (filter is_classify ops)) /\
    (forall t r, In (EvDispose t r) evs -> In (EvTidy t (Ok tt)) evs) /\
    (count is_model_built evs <= 1) /\
    (forall h, model s = Some h ->
       model (run_ops host ops s) = Some h /\ count is_load_step evs = 0).
Proof.
  induction ops as [|o ops IH]; intros s.
  - exists []. cbn. repeat split; auto.
  - rewrite run_ops_cons.
    destruct (run_op_spec host o s)
      as (e1 & Hlog1 & Hlbl1 & Hd1 & Hc1 & Hsame1 & Hb1 & Hm1 & Hk1).
    destruct (IH (run_op host o s))
      as (e2 & Hlog2 & Hlbl2 & Hd2 & Hc2 & Hsame2 & Hb2 & Hk2).
    exists (e2 ++ e1). rewrite !count_app.
    split; [rewrite Hlog2, Hlog1; apply app_assoc|].
    split; [congruence|].
    split; [lia|].
    split.
    { cbn [filter]. destruct (is_classify o); cbn [List.length]; lia. }
    split.
    { intros t r Hin. apply in_app_iff. apply in_app_iff in Hin.
      destruct Hin as [Hin|Hin]; [left; eauto | right; eauto]. }
    split.
    { destruct (Nat.eq_dec (count is_model_built e1) 1) as [Hone|Hnot]; [|lia].
      destruct (model (run_op host o s)) as [h|] eqn:Hmodel;
        [|exfalso; apply (Hm1 Hone); reflexivity].
      destruct (Hk2 h eq_refl) as (_ & Hnone).
      pose proof (count_built_le_load_step e2). lia. }
    intros h Hh. destruct (Hk1 h Hh) as (Hkept & Hz1).
    destruct (Hk2 h Hkept) as (Hkept2 & Hz2). split; [exact Hkept2 | lia].
Qed.

Lemma reachable_labels (W : Type) (host : Host W) (s : St W) :
  reachable host s -> labels s = MLService.labels_init.
Proof.
  intros (w & ops & ->).
  destruct (run_ops_spec host ops (MLService.init w)) as (evs & _ & Hlbl & _).
  exact Hlbl.
Qed.

Lemma reachable_init (W : Type) (host : Host W) (w : W) :
  reachable host (MLService.init w).
Proof. exists w, []. reflexivity. Qed.

(** C9. The label table is the four-entry list of the source, in that order,
    and no call changes it: neither a single call from any state nor any
    sequence of calls from the initial state. *)
Theorem labels_never_mutated (W : Type) (host : Host W) :
  MLService.labels_init = ["Coffee Rust"; "Maize Streak"; "Wheat Rust"; "Healthy"] /\
  List.length MLService.labels_init = 4 /\
  (forall (w : W), labels (MLService.init w) = MLService.labels_init) /\
  (forall (u : option string) (s : St W),
     labels (snd (MLService.loadModel host u s)) = labels s) /\
  (forall (src : string) (s : St W),
     labels (snd (MLService.classifyImage host src s)) = labels s) /\
  (forall (ops : list Op) (w : W),
     labels (run_ops host ops (MLService.init w))
     = ["Coffee Rust"; "Maize Streak"; "Wheat Rust"; "Healthy"]).
Proof.
  repeat split.
  - intros u s.
    destruct (run_op_spec host (OpLoadModel u) s) as (evs & _ & Hlbl & _). exact Hlbl.
  - intros src s.
    destruct (run_op_spec host (OpClassifyImage src) s) as (evs & _ & Hlbl & _).
    exact Hlbl.
  - intros ops w. apply (reachable_labels (host := host)). exists w, ops. reflexivity.
Qed.

(** ** Label and confidence of a completed forward pass *)

(** C2, as the specification words it, fails on a vector without a positive
    element: for [-1, -0.5] the argmax is index 1, yet the loop keeps index 0
    and the answer is the first label. *)
Lemma label_not_argmax_on_negative_vector :
  exists r s',
    MLService.classifyImage (fake (working [-1; -(1#2)]%Q)) "leaf.jpg" start
    = (Ok r, s') /\
    yields (log s') [-1; -(1#2)]%Q /\
    is_argmax_first [-1; -(1#2)]%Q 1 /\
    label r = Some "Coffee Rust" /\
    nth_error MLService.labels_init (Nat.modulo 1 4) = Some "Maize Streak" /\
    label r <> nth_error MLService.labels_init (Nat.modulo 1 4).
Proof.
  do 2 eexists. split; [vm_compute; reflexivity|].
  split.
  { split; eexists; simpl; eauto. }
  split.
  { repeat split; simpl.
    - lia.
    - intros [|[|j]] Hj; simpl; try lia; discriminate.
    - intros [|j] Hj; [reflexivity | lia]. }
  repeat split. discriminate.
Qed.

(** C2, amended. From every reachable state a call completes, and when its
    forward pass delivered a vector with a positive element the label is the
    table entry at the argmax (ties to the lowest index) modulo 4; without a
    positive element it is the entry at index 0.  The vector
    [0.1, 0.05, 0.8, 0.05] gives Wheat Rust with confidence 80. *)
Theorem label_is_argmax_of_positive_vector
  (W : Type) (host : Host W) (s : St W) (imageSrc : string) :
  reachable host s ->
  exists r s' evs,
    MLService.classifyImage host imageSrc s = (Ok r, s') /\
    log s' = evs ++ log s /\
    (forall v i, yields evs v -> is_argmax_first v i -> (0 < nth i v 0)%Q ->
       label r = nth_error MLService.labels_init (Nat.modulo i 4)) /\
    (forall v, yields evs v -> (forall x, In x v -> (x <= 0)%Q) ->
       label r = nth_error MLService.labels_init 0) /\
    (yields evs [1#10; 5#100; 8#10; 5#100]%Q ->
       r = {| label := Some "Wheat Rust"; confidence := 80 |}).
Proof.
  intros Hreach. apply reachable_labels in Hreach.
  destruct (classifyImage_completes host s imageSrc)
    as (r & s' & evs & Hrun & Hlog & _ & _).
  exists r, s', evs. split; [exact Hrun|]. split; [exact Hlog|].
  assert (Hout : forall v, yields evs v -> r = outcome_of MLService.labels_init v).
  { intros v Hv. pose proof (classifyImage_yields _ _ _ Hrun Hlog Hv) as E.
    rewrite Hreach in E. congruence. }
  repeat split.
  - intros v i Hv Harg Hpos. rewrite (Hout v Hv). unfold outcome_of. cbn [label].
    destruct (MLService.scan v 0 0%Q 0) as [m k] eqn:Hscan. cbn [snd].
    assert (Hex : exists x, In x v /\ (0 < x)%Q).
    { exists (nth i v 0%Q). split; [apply nth_In; apply Harg | exact Hpos]. }
    destruct (scan_positive _ Hscan Hex) as (Hk & _).
    rewrite (is_argmax_first_unique Harg Hk). reflexivity.
  - intros v Hv Hall. rewrite (Hout v Hv). unfold outcome_of. cbn [label].
    destruct (MLService.scan v 0 0%Q 0) as [m k] eqn:Hscan. cbn [snd].
    destruct (scan_nonpositive _ Hscan Hall) as (_ & ->). reflexivity.
  - intros Hv. rewrite (Hout _ Hv). vm_compute. reflexivity.
Qed.

Lemma label_is_argmax_of_positive_vector_witness :
  fst (MLService.classifyImage (fake (working [1#10; 5#100; 8#10; 5#100]%Q))
         "leaf.jpg" start)
  = Ok {| label := Some "Wheat Rust"; confidence := 80 |}.
Proof.
  destruct (@label_is_argmax_of_positive_vector FakeWorld
              (fake (working [1#10; 5#100; 8#10; 5#100]%Q)) start "leaf.jpg"
              (reachable_init _ (false, 0)))
    as (r & s' & evs & Hrun & Hlog & _ & _ & Hex).
  rewrite Hrun. cbn [fst]. f_equal. apply Hex.
  vm_compute in Hrun. inversion Hrun; subst; clear Hrun.
  cbn [log start MLService.init] in Hlog. rewrite app_nil_r in Hlog. subst evs.
  split; eexists; simpl; eauto 10.
Defined.

(** C3, as the specification words it, fails on a vector of negative numbers:
    for [-0.5] the maximum is -0.5 and rounds to -50, yet [maxProb] stays at
    its initial 0. *)
Lemma confidence_not_rounded_max_on_negative_vector :
  exists r s',
    MLService.classifyImage (fake (working [-(1#2)]%Q)) "leaf.jpg" start
    = (Ok r, s') /\
    yields (log s') [-(1#2)]%Q /\
    is_max [-(1#2)]%Q (-(1#2))%Q /\
    confidence r = 0%Z /\
    Math_round (100 * -(1#2))%Q = (-50)%Z /\
    confidence r <> Math_round (100 * -(1#2))%Q.
Proof.
  do 2 eexists. split; [vm_compute; reflexivity|].
  split.
  { split; eexists; simpl; eauto. }
  split.
  { split.
    - eexists. split; [left; reflexivity | reflexivity].
    - intros x [<-|[]]. apply Qle_refl. }
  repeat split. discriminate.
Qed.

(** C3, amended. A call completes, and when its forward pass delivered a
    vector whose maximum is not negative the confidence is that maximum times
    100, rounded; when every element lies in [0, 1] the confidence lies in
    [0, 100]. *)
Theorem confidence_is_rounded_max
  (W : Type) (host : Host W) (s : St W) (imageSrc : string) :
  exists r s' evs,
    MLService.classifyImage host imageSrc s = (Ok r, s') /\
    log s' = evs ++ log s /\
    (forall v m, yields evs v -> is_max v m -> (0 <= m)%Q ->
       confidence r = Math_round (100 * m)%Q) /\
    (forall v, yields evs v -> (forall x, In x v -> (0 <= x <= 1)%Q) ->
       (0 <= confidence r <= 100)%Z).
Proof.
  destruct (classifyImage_completes host s imageSrc)
    as (r & s' & evs & Hrun & Hlog & _ & _).
  exists r, s', evs. split; [exact Hrun|]. split; [exact Hlog|].
  assert (Hout : forall v, yields evs v -> r = outcome_of (labels s) v).
  { intros v Hv. pose proof (classifyImage_yields _ _ _ Hrun Hlog Hv) as E.
    congruence. }
  split.
  - intros v m Hv Hmax Hnn. rewrite (Hout v Hv). unfold outcome_of. cbn [confidence].
    destruct (MLService.scan v 0 0%Q 0) as [p k] eqn:Hscan. cbn [fst].
    apply Math_round_eq. rewrite (scan_max Hscan Hmax Hnn). apply Qmult_comm.
  - intros v Hv Hrange. rewrite (Hout v Hv). unfold outcome_of. cbn [confidence].
    destruct (MLService.scan v 0 0%Q 0) as [p k] eqn:Hscan. cbn [fst].
    assert (Hp : (0 <= p <= 1)%Q).
    { destruct (scan_inv _ _ _ _ Hscan) as (_ & Hle & Hcase). split; [exact Hle|].
      destruct Hcase as [[-> _] | (j & Hj & _ & -> & _)]; [discriminate|].
      apply Hrange. apply nth_In. exact Hj. }
    destruct Hp as [Hp0 Hp1]. split.
    + change 0%Z with (Math_round (0 * 100)%Q). apply Math_round_le.
      apply Qmult_le_compat_r; [exact Hp0 | discriminate].
    + change 100%Z with (Math_round (1 * 100)%Q). apply Math_round_le.
      apply Qmult_le_compat_r; [exact Hp1 | discriminate].
Qed.

Lemma confidence_is_rounded_max_witness :
  exists r,
    fst (MLService.classifyImage (fake (working [1#10; 5#100; 8#10; 5#100]%Q))
           "leaf.jpg" start) = Ok r /\
    confidence r = Math_round (100 * (8#10))%Q /\
    (0 <= confidence r <= 100)%Z.
Proof.
  destruct (confidence_is_rounded_max
              (fake (working [1#10; 5#100; 8#10; 5#100]%Q)) start "leaf.jpg")
    as (r & s' & evs & Hrun & Hlog & Hmax & Hrange).
  exists r. rewrite Hrun. split; [reflexivity|].
  assert (Hy : yields evs [1#10; 5#100; 8#10; 5#100]%Q).
  { vm_compute in Hrun. inversion Hrun; subst; clear Hrun.
    cbn [log start MLService.init] in Hlog. rewrite app_nil_r in Hlog. subst evs.
    split; eexists; simpl; eauto 10. }
  split.
  - apply (Hmax _ _ Hy); [|discriminate].
    split.
    + exists (8#10)%Q. split; [simpl; auto | reflexivity].
    + intros x Hx. simpl in Hx.
      destruct Hx as [<-|[<-|[<-|[<-|[]]]]]; discriminate.
  - apply (Hrange _ Hy). intros x Hx. simpl in Hx.
    destruct Hx as [<-|[<-|[<-|[<-|[]]]]]; split; discriminate.
Defined.

(** ** Degenerate output vectors *)

(** C4, as the specification words it, fails: an empty output vector is not a
    failure for the code.  The loop body never runs and the call answers the
    first label, not the fallback. *)
Lemma empty_vector_is_not_a_failure :
  exists r s',
    MLService.classifyImage (fake (working [])) "leaf.jpg" start = (Ok r, s') /\
    yields (log s') [] /\
    r = {| label := Some "Coffee Rust"; confidence := 0 |} /\
    r <> MLService.fallback.
Proof.
  do 2 eexists. split; [vm_compute; reflexivity|].
  split.
  { split; eexists; simpl; eauto. }
  split; [reflexivity | discriminate].
Qed.

(** C4, amended. From every reachable state a call completes without
    throwing, and when its forward pass delivered the empty vector it answers
    the first label of the table with confidence 0. *)
Theorem empty_vector_gives_first_label
  (W : Type) (host : Host W) (s : St W) (imageSrc : string) :
  reachable host s ->
  exists r s' evs,
    MLService.classifyImage host imageSrc s = (Ok r, s') /\
    log s' = evs ++ log s /\
    (yields evs [] -> r = {| label := Some "Coffee Rust"; confidence := 0 |}).
Proof.
  intros Hreach. apply reachable_labels in Hreach.
  destruct (classifyImage_completes host s imageSrc)
    as (r & s' & evs & Hrun & Hlog & _ & _).
  exists r, s', evs. split; [exact Hrun|]. split; [exact Hlog|].
  intros Hv. pose proof (classifyImage_yields _ _ _ Hrun Hlog Hv) as E.
  rewrite Hreach in E. inversion E. reflexivity.
Qed.

Lemma empty_vector_gives_first_label_witness :
  fst (MLService.classifyImage (fake (working [])) "leaf.jpg" start)
  = Ok {| label := Some "Coffee Rust"; confidence := 0 |}.
Proof.
  destruct (@empty_vector_gives_first_label FakeWorld
              (fake (working [])) start "leaf.jpg" (reachable_init _ (false, 0)))
    as (r & s' & evs & Hrun & Hlog & Hempty).
  rewrite Hrun. cbn [fst]. f_equal. apply Hempty.
  vm_compute in Hrun. inversion Hrun; subst; clear Hrun.
  cbn [log start MLService.init] in Hlog. rewrite app_nil_r in Hlog. subst evs.
  split; eexists; simpl; eauto 10.
Defined.

(** On vectors of rationals: from every reachable state a call completes with
    a label taken from the four-entry table and a confidence not below 0; when
    the forward pass delivered a vector without a positive element the answer
    is the first label with confidence 0. *)
Lemma classifyImage_result_in_table
  (W : Type) (host : Host W) (s : St W) (imageSrc : string) :
  reachable host s ->
  exists r s' evs,
    MLService.classifyImage host imageSrc s = (Ok r, s') /\
    log s' = evs ++ log s /\
    (exists l, label r = Some l /\
               In l ["Coffee Rust"; "Maize Streak"; "Wheat Rust"; "Healthy"]) /\
    (0 <= confidence r)%Z /\
    (forall v, yields evs v -> (forall x, In x v -> (x <= 0)%Q) ->
       r = {| label := Some "Coffee Rust"; confidence := 0 |}).
Proof.
  intros Hreach. apply reachable_labels in Hreach.
  destruct (classifyImage_completes host s imageSrc)
    as (r & s' & evs & Hrun & Hlog & _ & Hcase).
  exists r, s', evs. split; [exact Hrun|]. split; [exact Hlog|].
  assert (Hout : forall v, yields evs v -> r = outcome_of MLService.labels_init v).
  { intros v Hv. pose proof (classifyImage_yields _ _ _ Hrun Hlog Hv) as E.
    rewrite Hreach in E. congruence. }
  assert (Hwf : (exists l, label r = Some l /\ In l MLService.labels_init) /\
                (0 <= confidence r)%Z).
  { destruct Hcase as [-> | [v Hv]].
    - split; [exists "Healthy"; simpl; auto 10 | discriminate].
    - rewrite (Hout v Hv). unfold outcome_of. cbn [label confidence].
      destruct (MLService.scan v 0 0%Q 0) as [p k] eqn:Hscan. cbn [fst snd].
      split; [apply label_lookup|].
      change 0%Z with (Math_round (0 * 100)%Q). apply Math_round_le.
      apply Qmult_le_compat_r; [exact (scan_nonneg _ Hscan) | discriminate]. }
  destruct Hwf as [Hlabel Hconf].
  split; [exact Hlabel|]. split; [exact Hconf|].
  intros v Hv Hall. rewrite (Hout v Hv). unfold outcome_of.
  destruct (MLService.scan v 0 0%Q 0) as [p k] eqn:Hscan. cbn [fst snd].
  destruct (scan_nonpositive _ Hscan Hall) as (-> & ->). reflexivity.
Qed.

(** On finite values the loop over numbers is the loop over rationals. *)
Lemma scan_numbers_finite (rest : list Q) :
  forall (i : nat) (m : Q) (k : nat),
    scan_numbers (map Number.Finite rest) i (Number.Finite m) k
    = (Number.Finite (fst (MLService.scan rest i m k)),
       snd (MLService.scan rest i m k)).
Proof.
  induction rest as [|p rest IH]; intros i m k; [reflexivity|].
  cbn [map scan_numbers MLService.scan Number.gt].
  destruct (Qgtb p m); apply IH.
Qed.

(** For a finite vector the answer on numbers is the one on rationals, the
    confidence being the number that holds the integer. *)
Lemma answer_of_numbers_finite (lbls : list string) (v : list Q) :
  answer_of_numbers lbls (map Number.Finite v)
  = (label (outcome_of lbls v),
     Number.Finite (inject_Z (confidence (outcome_of lbls v)))).
Proof.
  unfold answer_of_numbers, outcome_of. rewrite scan_numbers_finite.
  cbn [label confidence Number.mul Number.round]. reflexivity.
Qed.

(** Without plus infinity in the array the loop keeps a finite [maxProb] that
    is not below the one it started with. *)
Lemma scan_numbers_without_infinity (ns : list Number.t) :
  ~ In Number.PosInfinity ns ->
  forall (i : nat) (m : Q) (k : nat),
    exists m' k',
      scan_numbers ns i (Number.Finite m) k = (Number.Finite m', k') /\
      (m <= m')%Q.
Proof.
  induction ns as [|n ns IH]; intros Hno i m k.
  - exists m, k. split; [reflexivity | apply Qle_refl].
  - assert (Hno' : ~ In Number.PosInfinity ns) by (intros H; apply Hno; now right).
    cbn [scan_numbers].
    destruct n as [p | | |]; cbn [Number.gt].
    + destruct (Qgtb p m) eqn:E.
      * apply Qgtb_true in E.
        destruct (IH Hno' (S i) p i) as (m' & k' & Hrun & Hle).
        exists m', k'. split; [exact Hrun|].
        apply Qlt_le_weak. eapply Qlt_le_trans; eauto.
      * apply IH. exact Hno'.
    + exfalso. apply Hno. now left.
    + apply IH. exact Hno'.
    + apply IH. exact Hno'.
Qed.

(** An array with no element above 0 leaves the loop where it started. *)
Lemma scan_numbers_none_positive (ns : list Number.t) :
  (forall n, In n ns -> Number.gt n (Number.Finite 0) = false) ->
  forall i, scan_numbers ns i (Number.Finite 0) 0 = (Number.Finite 0, 0).
Proof.
  induction ns as [|n ns IH]; intros Hall i; [reflexivity|].
  cbn [scan_numbers]. rewrite (Hall n (or_introl eq_refl)).
  apply IH. intros n' Hn'. apply Hall. now right.
Qed.

(** C10, as it is worded, fails on an output that holds plus infinity: for
    [NaN, Infinity, 0.5] the loop skips NaN, takes Infinity at index 1 and
    keeps it, so the answer is Maize Streak with confidence
    [Math.round(Infinity * 100)], which is Infinity and not an integer. *)
Lemma infinite_output_gives_infinite_confidence :
  answer_of_numbers MLService.labels_init
    [Number.NaN; Number.PosInfinity; Number.Finite (1 # 2)]
  = (Some "Maize Streak", Number.PosInfinity) /\
  Number.isInteger Number.PosInfinity = false /\
  Number.isInteger
    (snd (answer_of_numbers MLService.labels_init
            [Number.NaN; Number.PosInfinity; Number.Finite (1 # 2)])) <> true.
Proof.
  repeat split. vm_compute. discriminate.
Qed.

(** C10, amended to outputs without plus infinity.  From every reachable state
    a call completes with a label of the four-entry table and a confidence not
    below 0, on the fallback path too; for the finite vector its forward pass
    delivered, label and confidence are what lines 83 to 98 give on the
    numbers of the array, and without a positive element they are the first
    label and 0.  On any array that holds no plus infinity (NaN and minus
    infinity allowed), those lines give a label of the table and a confidence
    that is an integer not below 0, and the first label with 0 when no element
    is above 0. *)
Theorem result_is_well_formed_without_infinity
  (W : Type) (host : Host W) (s : St W) (imageSrc : string) :
  reachable host s ->
  (exists r s' evs,
     MLService.classifyImage host imageSrc s = (Ok r, s') /\
     log s' = evs ++ log s /\
     (exists l, label r = Some l /\
                In l ["Coffee Rust"; "Maize Streak"; "Wheat Rust"; "Healthy"]) /\
     (0 <= confidence r)%Z /\
     (forall v, yields evs v ->
        answer_of_numbers MLService.labels_init (map Number.Finite v)
        = (label r, Number.Finite (inject_Z (confidence r)))) /\
     (forall v, yields evs v -> (forall x, In x v -> (x <= 0)%Q) ->
        r = {| label := Some "Coffee Rust"; confidence := 0 |})) /\
  (forall ns : list Number.t,
     ~ In Number.PosInfinity ns ->
     exists l z,
       answer_of_numbers MLService.labels_init ns
       = (Some l, Number.Finite (inject_Z z)) /\
       In l ["Coffee Rust"; "Maize Streak"; "Wheat Rust"; "Healthy"] /\
       (0 <= z)%Z /\
       Number.isInteger (snd (answer_of_numbers MLService.labels_init ns)) = true /\
       ((forall n, In n ns -> Number.gt n (Number.Finite 0) = false) ->
        l = "Coffee Rust" /\ z = 0%Z)).
Proof.
  intros Hreach. split.
  - destruct (@classifyImage_result_in_table W host s imageSrc Hreach)
      as (r & s' & evs & Hrun & Hlog & Hlabel & Hconf & Hneg).
    exists r, s', evs. repeat split; auto.
    intros v Hv. apply reachable_labels in Hreach.
    pose proof (classifyImage_yields _ _ _ Hrun Hlog Hv) as E.
    rewrite Hreach in E. inversion E. apply answer_of_numbers_finite.
  - intros ns Hno. unfold answer_of_numbers.
    destruct (@scan_numbers_without_infinity ns Hno 0 0%Q 0) as (m & k & Hrun & Hle).
    destruct (label_lookup k) as (l & Hl & Hin).
    exists l, (Math_round (m * 100)%Q).
    assert (Hanswer : (let '(maxProb, maxIndex) :=
                         scan_numbers ns 0 (Number.Finite 0) 0 in
                       (nth_error MLService.labels_init
                          (Nat.modulo maxIndex (List.length MLService.labels_init)),
                        Number.round (Number.mul maxProb (Number.Finite 100))))
                      = (Some l, Number.Finite (inject_Z (Math_round (m * 100)%Q)))).
    { rewrite Hrun. cbn [Number.mul Number.round]. rewrite Hl. reflexivity. }
    rewrite Hanswer. cbn [snd Number.isInteger].
    split; [reflexivity|]. split; [exact Hin|].
    split.
    { change 0%Z with (Math_round (0 * 100)%Q). apply Math_round_le.
      apply Qmult_le_compat_r; [exact Hle | discriminate]. }
    split.
    { rewrite Qfloor_Z. apply Qeq_bool_iff. reflexivity. }
    intros Hall. rewrite (@scan_numbers_none_positive ns Hall 0) in Hrun.
    inversion Hrun; subst m k. split; [|reflexivity].
    cbn in Hl. congruence.
Qed.

Lemma result_is_well_formed_without_infinity_witness :
  fst (MLService.classifyImage (fake (working [-1; 0; -(1#2)]%Q)) "leaf.jpg" start)
  = Ok {| label := Some "Coffee Rust"; confidence := 0 |} /\
  answer_of_numbers MLService.labels_init
    [Number.NaN; Number.NegInfinity; Number.Finite (-1)]
  = (Some "Coffee Rust", Number.Finite 0).
Proof.
  destruct (@result_is_well_formed_without_infinity FakeWorld
              (fake (working [-1; 0; -(1#2)]%Q)) start "leaf.jpg"
              (reachable_init _ (false, 0)))
    as ((r & s' & evs & Hrun & Hlog & _ & _ & _ & Hneg) & Hnumbers).
  split.
  - rewrite Hrun. cbn [fst]. f_equal. apply (Hneg [-1; 0; -(1#2)]%Q).
    + vm_compute in Hrun. inversion Hrun; subst; clear Hrun.
      cbn [log start MLService.init] in Hlog. rewrite app_nil_r in Hlog. subst evs.
      split; eexists; simpl; eauto 10.
    + intros x Hx. simpl in Hx. destruct Hx as [<-|[<-|[<-|[]]]]; discriminate.
  - destruct (Hnumbers [Number.NaN; Number.NegInfinity; Number.Finite (-1)])
      as (l & z & Hanswer & _ & _ & _ & Hfirst).
    + simpl. intros [H|[H|[H|[]]]]; discriminate H.
    + rewrite Hanswer. destruct Hfirst as [-> ->]; [|reflexivity].
      intros n Hn. simpl in Hn. destruct Hn as [<-|[<-|[<-|[]]]]; reflexivity.
Defined.

(** ** Loading the model *)

(** C5, as the specification words it, fails when the first load does not go
    through: with a runtime whose first model construction throws, two calls
    of [classifyImage] in sequence perform the load twice (two fetches, two
    constructions), and the load step of the second call is a full load. *)
Lemma failed_load_is_attempted_again :
  let s1 := run_ops (fake (flaky_build [1%Q])) [OpClassifyImage "a.jpg"] start in
  let s2 := run_ops (fake (flaky_build [1%Q])) [OpClassifyImage "b.jpg"] s1 in
  model s1 = None /\
  model s2 = Some 1 /\
  count is_fetch (log s2) = 2 /\
  count is_load_call (log s2) = 2 /\
  exists evs2, log s2 = evs2 ++ log s1 /\ count is_load_step evs2 = 5.
Proof.
  cbv zeta. repeat split; try (vm_compute; reflexivity).
  match goal with
  | |- exists evs2, log ?s2 = evs2 ++ log ?s1 /\ _ =>
      exists (firstn (List.length (log s2) - List.length (log s1)) (log s2))
  end.
  split; vm_compute; reflexivity.
Qed.

(** C5, amended. A populated handle makes [loadModel] return it at once, with
    no host interaction and no change of state; no sequence of calls clears or
    replaces a populated handle; over any sequence of calls the runtime builds
    a model at most once; and from a state with a populated handle a sequence
    of calls performs no step of the load. *)
Theorem model_loaded_at_most_once (W : Type) (host : Host W) :
  (forall (u : option string) (s : St W) (h : Handle),
     model s = Some h -> MLService.loadModel host u s = (Ok h, s)) /\
  (forall (ops : list Op) (s : St W) (h : Handle),
     model s = Some h -> model (run_ops host ops s) = Some h) /\
  (forall (ops : list Op) (s : St W),
     exists evs,
       log (run_ops host ops s) = evs ++ log s /\
       count is_model_built evs <= 1 /\
       (model s <> None -> count is_load_step evs = 0)) /\
  (forall (src1 src2 : string) (s : St W),
     let s1 := snd (MLService.classifyImage host src1 s) in
     let s2 := snd (MLService.classifyImage host src2 s1) in
     exists evs1 evs2,
       log s1 = evs1 ++ log s /\ log s2 = evs2 ++ log s1 /\
       count is_model_built (evs2 ++ evs1) <= 1 /\
       (model s1 <> None -> count is_load_step evs2 = 0 /\ model s2 = model s1)).
Proof.
  split; [|split; [|split]].
  - intros u s h Hm.
    destruct (loadModel_runs host u s) as (r & s' & evs & Hrun & _ & _ & _ & _ & _ & _ & Hc).
    destruct (Hc h Hm) as (-> & -> & _). exact Hrun.
  - intros ops s h Hm.
    destruct (run_ops_spec host ops s) as (evs & _ & _ & _ & _ & _ & _ & Hk).
    apply (Hk h Hm).
  - intros ops s.
    destruct (run_ops_spec host ops s) as (evs & Hlog & _ & _ & _ & _ & Hb & Hk).
    exists evs. split; [exact Hlog|]. split; [exact Hb|].
    intros Hm. destruct (model s) as [h|] eqn:E; [|congruence].
    apply (Hk h eq_refl).
  - intros src1 src2 s s1 s2.
    destruct (run_ops_spec host [OpClassifyImage src1; OpClassifyImage src2] s)
      as (evs & Hlog & _ & _ & _ & _ & Hb & _).
    destruct (run_op_spec host (OpClassifyImage src1) s) as (evs1 & Hlog1 & _).
    destruct (run_op_spec host (OpClassifyImage src2) s1)
      as (evs2 & Hlog2 & _ & _ & _ & _ & _ & _ & Hk).
    cbn [run_op] in Hlog1, Hlog2. fold s1 in Hlog1. fold s2 in Hlog2.
    exists evs1, evs2. split; [exact Hlog1|]. split; [exact Hlog2|].
    split.
    + assert (E : evs = evs2 ++ evs1).
      { apply (app_inv_tail (log s)). rewrite <- Hlog, <- app_assoc, <- Hlog1.
        exact Hlog2. }
      rewrite <- E. exact Hb.
    + intros Hm. destruct (model s1) as [h|] eqn:E; [|congruence].
      destruct (Hk h eq_refl) as [Hkept Hz]. split; [exact Hz | exact Hkept].
Qed.

Lemma model_loaded_at_most_once_witness :
  let s1 := snd (MLService.classifyImage (fake (working [1%Q])) "a.jpg" start) in
  let s2 := snd (MLService.classifyImage (fake (working [1%Q])) "b.jpg" s1) in
  model s2 = model s1 /\ MLService.loadModel (fake (working [1%Q])) None s2 = (Ok 1, s2).
Proof.
  destruct (model_loaded_at_most_once (fake (working [1%Q])))
    as (Hidem & _ & _ & Htwice).
  intros s1 s2.
  destruct (Htwice "a.jpg" "b.jpg" start) as (evs1 & evs2 & _ & _ & _ & Hsecond).
  fold s1 in Hsecond. fold s2 in Hsecond.
  assert (Hm : model s1 <> None) by (vm_compute; discriminate).
  destruct (Hsecond Hm) as [_ Hkept].
  split; [exact Hkept|].
  apply Hidem. rewrite Hkept. vm_compute. reflexivity.
Defined.

(** C6. Called on its own with no model loaded, [loadModel] lets failures
    reach its caller: with window.tflite missing now and still missing after
    the single 500 ms wait it throws the not-loaded error, having looked,
    waited once and looked again; a fetch that rejects is rethrown; a response
    that is not ok is turned into the failed-to-fetch error; and it returns a
    handle only when no step failed. *)
Theorem loadModel_propagates_failures
  (W : Type) (host : Host W) (u : option string) (s : St W) :
  model s = None ->
  exists r s' evs,
    MLService.loadModel host u s = (r, s') /\
    log s' = evs ++ log s /\
    (window_tflite host (world s) = false ->
     window_tflite host (setTimeout host 500 (world s)) = false ->
     r = Throw (Error "TFLite library not loaded from CDN") /\
     evs = [EvConsoleError "Failed to load TFLite model:"
              (Error "TFLite library not loaded from CDN");
            EvWindowTflite false; EvSleep 500; EvWindowTflite false]) /\
    (forall url e, In (EvFetch url (Throw e)) evs -> r = Throw e) /\
    (forall url response, In (EvFetch url (Ok response)) evs -> ok response = false ->
       r = Throw (Error ("Failed to fetch model: " ++ statusText response)%string)) /\
    (pipeline_failed evs = true -> exists e, r = Throw e /\ model s' = None) /\
    (forall h, r = Ok h -> model s' = Some h).
Proof.
  intros Hnone. destruct s as [cached lbls w l]. cbn [model] in Hnone. subst cached.
  cbn [world log].
  unfold_service; repeat host_step.
  all: do 3 eexists; (split; [reflexivity|]); cbn [log model]; give_log.
  all: repeat split; intros; try discriminate; try congruence; in_log.
  all: try match goal with
         | H : EvFetch _ _ = EvFetch _ _ |- _ => inversion H; subst; clear H
         end; try congruence; eauto.
  all: match goal with
       | H : pipeline_failed _ = true |- _ =>
           unfold pipeline_failed in H;
           cbn [runtime_unavailable existsb failed orb] in H;
           use_outcomes H; cbn in H; discriminate H
       end.
Qed.

Lemma loadModel_propagates_failures_witness :
  fst (MLService.loadModel (fake no_runtime) None start)
  = Throw (Error "TFLite library not loaded from CDN") /\
  fst (MLService.loadModel (fake not_found) None start)
  = Throw (Error "Failed to fetch model: Not Found").
Proof.
  split.
  - destruct (@loadModel_propagates_failures FakeWorld (fake no_runtime) None start
                eq_refl)
      as (r & s' & evs & Hrun & _ & Hmissing & _).
    rewrite Hrun. cbn [fst]. apply Hmissing; reflexivity.
  - destruct (@loadModel_propagates_failures FakeWorld (fake not_found) None start
                eq_refl)
      as (r & s' & evs & Hrun & Hlog & _ & _ & Hstatus & _).
    rewrite Hrun. cbn [fst].
    apply (Hstatus MLService.default_modelUrl
             {| ok := false; statusText := "Not Found"; body_id := 0 |});
      [|reflexivity].
    vm_compute in Hrun. inversion Hrun; subst; clear Hrun.
    cbn [log start MLService.init] in Hlog. rewrite app_nil_r in Hlog. subst evs.
    simpl. auto 10.
Defined.

(** ** The input tensor *)

(** C7, as the specification words it, fails: a call that stops before the
    tensor exists has nothing to release.  With a picture that does not decode
    there is one call of [classifyImage] and no call of [dispose]. *)
Lemma undecodable_image_releases_nothing :
  let ops := [OpClassifyImage "leaf.jpg"] in
  let s' := run_ops (fake bad_image) ops start in
  fst (MLService.classifyImage (fake bad_image) "leaf.jpg" start)
  = Ok MLService.fallback /\
  List.length (filter is_classify ops) = 1 /\
  count is_alloc (log s') = 0 /\
  count is_dispose (log s') = 0 /\
  count is_dispose (log s') <> List.length (filter is_classify ops).
Proof.
  cbv zeta. repeat split; try (vm_compute; reflexivity). vm_compute. discriminate.
Qed.

(** C7, amended. Every input tensor that comes into existence is released
    before the call that made it returns, on the success path and on every
    failure path: a call adds as many [dispose] events as tensors, at most
    one, and releases the tensor it allocated; over any sequence of calls the
    number of releases equals the number of tensors allocated and does not
    exceed the number of calls of [classifyImage]. *)
Theorem tensor_released_when_allocated (W : Type) (host : Host W) :
  (forall (src : string) (s : St W),
     exists evs,
       log (snd (MLService.classifyImage host src s)) = evs ++ log s /\
       count is_dispose evs = count is_alloc evs /\
       count is_dispose evs <= 1 /\
       (forall t r, In (EvDispose t r) evs -> In (EvTidy t (Ok tt)) evs)) /\
  (forall (ops : list Op) (s : St W),
     exists evs,
       log (run_ops host ops s) = evs ++ log s /\
       count is_dispose evs = count is_alloc evs /\
       count is_dispose evs <= List.length (filter is_classify ops) /\
       (forall t r, In (EvDispose t r) evs -> In (EvTidy t (Ok tt)) evs)).
Proof.
  split.
  - intros src s.
    destruct (classifyImage_runs host src s) as (evs & Hlog & _ & Hd & H1 & Hsame & _).
    exists evs. auto.
  - intros ops s.
    destruct (run_ops_spec host ops s) as (evs & Hlog & _ & Hd & Hc & Hsame & _).
    exists evs. auto.
Qed.

(** C8. The only tensor a call builds, and the only one it feeds to the model,
    is the decoded image resized bilinearly to 224 by 224, given a leading
    axis of size 1, converted to float, divided by 127.5 and decreased by 1;
    that maps a pixel value of [0, 255] into [-1, 1].  The forward pass runs at
    most once per call, and exactly once, straight after the preprocessing,
    whenever the preprocessing of the decoded image completed. *)
Theorem input_is_preprocessed_image
  (W : Type) (host : Host W) (s : St W) (imageSrc : string) :
  let input :=
    tf.sub (tf.div (tf.toFloat (tf.expandDims
      (tf.resizeBilinear (tf.fromPixels imageSrc) (224, 224)) 0)) (255 # 2)%Q) 1%Q in
  exists r s' evs,
    MLService.classifyImage host imageSrc s = (Ok r, s') /\
    log s' = evs ++ log s /\
    (forall t o, In (EvTidy t o) evs -> t = input) /\
    (forall m t o, In (EvPredict m t o) evs ->
       t = input /\ In (EvTidy input (Ok tt)) evs /\ In (EvImage imageSrc true) evs) /\
    count is_predict evs <= 1 /\
    (In (EvTidy input (Ok tt)) evs ->
       count is_predict evs = 1 /\ predict_right_after_tidy evs = true) /\
    (forall h w1 w2,
       model s = Some h ->
       image_onload host imageSrc (world s) = (true, w1) ->
       window_tf host w1 = true ->
       tidy host input w1 = (Ok tt, w2) ->
       In (EvTidy input (Ok tt)) evs) /\
    (forall h w, tf.shape h w input = [1; 224; 224; 3]) /\
    (forall x, tf.pointwise input x == x / (255 # 2) - 1)%Q /\
    (forall x, 0 <= x <= 255 -> -1 <= tf.pointwise input x <= 1)%Q.
Proof.
  intros input. subst input.
  assert (Hnum : (forall h w, tf.shape h w (MLService.preprocess imageSrc)
                              = [1; 224; 224; 3]) /\
                 (forall x, tf.pointwise (MLService.preprocess imageSrc) x
                            == x / (255 # 2) - 1)%Q /\
                 (forall x, 0 <= x <= 255 ->
                            -1 <= tf.pointwise (MLService.preprocess imageSrc) x <= 1)%Q).
  { split; [reflexivity|]. split; [intros x; reflexivity|].
    intros x [H0 H255]. cbn [MLService.preprocess tf.pointwise].
    unfold Qdiv. change (/ (255 # 2))%Q with (2 # 255)%Q.
    split; lra. }
  change (tf.sub (tf.div (tf.toFloat (tf.expandDims
            (tf.resizeBilinear (tf.fromPixels imageSrc) (224, 224)) 0))
            (255 # 2)%Q) 1%Q) with (MLService.preprocess imageSrc).
  destruct Hnum as (Hshape & Hpoint & Hrange).
  exec s.
  all: do 3 eexists; (split; [reflexivity|]); cbn [log model world]; give_log.
  all: split; [intros t o Hin; in_log; inversion Hin; reflexivity|].
  all: split; [intros m t o Hin; in_log; inversion Hin; subst;
               repeat split; simpl; auto 20|].
  all: split; [cbv [count filter is_predict List.length]; lia|].
  all: split; [intros Hin; in_log; split; reflexivity|].
  all: split; [|auto].
  all: intros hm wa wb Hm Himg Htf Htidy; try discriminate Hm;
    try (simpl; auto 20; fail); exfalso; congruence.
Qed.

Lemma input_is_preprocessed_image_witness :
  let input :=
    tf.sub (tf.div (tf.toFloat (tf.expandDims
      (tf.resizeBilinear (tf.fromPixels "leaf.jpg") (224, 224)) 0)) (255 # 2)%Q) 1%Q in
  count is_predict
    (log (snd (MLService.classifyImage (fake (working [1%Q])) "leaf.jpg" start))) = 1 /\
  (-1 <= tf.pointwise input 0 <= 1)%Q /\ (-1 <= tf.pointwise input 255 <= 1)%Q.
Proof.
  intros input.
  destruct (input_is_preprocessed_image (fake (working [1%Q])) start "leaf.jpg")
    as (r & s' & evs & Hrun & Hlog & _ & _ & _ & Hdone & _ & _ & _ & Hrange).
  rewrite Hrun. cbn [snd]. rewrite Hlog. cbn [log start MLService.init].
  rewrite app_nil_r.
  split.
  - apply Hdone.
    vm_compute in Hrun. inversion Hrun; subst; clear Hrun.
    cbn [log start MLService.init] in Hlog. rewrite app_nil_r in Hlog. subst evs.
    simpl. auto 20.
  - split; apply Hrange; split; discriminate.
Defined.

Lemma tensor_released_when_allocated_witness :
  let s' := run_ops (fake (working [1%Q]))
              [OpClassifyImage "a.jpg"; OpLoadModel None; OpClassifyImage "b.jpg"]
              start in
  count is_dispose (log s') = count is_alloc (log s') /\
  In (EvTidy (MLService.preprocess "b.jpg") (Ok tt)) (log s').
Proof.
  intros s'.
  destruct (tensor_released_when_allocated (fake (working [1%Q]))) as [_ Hseq].
  destruct (Hseq [OpClassifyImage "a.jpg"; OpLoadModel None; OpClassifyImage "b.jpg"]
              start) as (evs & Hlog & Hsame & _ & Hfrom).
  fold s' in Hlog. cbn [log start MLService.init] in Hlog.
  rewrite app_nil_r in Hlog. rewrite Hlog.
  split; [exact Hsame|].
  apply (Hfrom (MLService.preprocess "b.jpg") (Ok tt)).
  rewrite <- Hlog. vm_compute. auto.
Defined.

(** * Further properties of the service *)

(** X1. While no model is loaded, [classifyImage] never touches the picture: a
    call that ends without a model answers the fallback and has made no host
    call after the load step (no image decode, no tensor, no forward pass, no
    release). *)
Theorem no_model_no_inference
  (W : Type) (host : Host W) (s : St W) (imageSrc : string) :
  exists r s' evs,
    MLService.classifyImage host imageSrc s = (Ok r, s') /\
    log s' = evs ++ log s /\
    (model s' = None ->
     r = MLService.fallback /\ count is_inference_step evs = 0) /\
    (count is_inference_step evs <> 0 -> exists h, model s' = Some h).
Proof.
  exec s.
  all: do 3 eexists; (split; [reflexivity|]); cbn [log model]; give_log.
  all: cbv [count filter is_inference_step List.length].
  all: split; [intros Hm; try discriminate Hm; split; reflexivity|].
  all: intros Hn; try (exfalso; apply Hn; reflexivity); eexists; reflexivity.
Qed.

Lemma no_model_no_inference_witness :
  count is_inference_step
    (log (snd (MLService.classifyImage (fake not_found) "leaf.jpg" start))) = 0.
Proof.
  destruct (no_model_no_inference (fake not_found) start "leaf.jpg")
    as (r & s' & evs & Hrun & Hlog & Hnone & _).
  rewrite Hrun. cbn [snd]. rewrite Hlog. cbn [log start MLService.init].
  rewrite app_nil_r. apply Hnone.
  vm_compute in Hrun. inversion Hrun. reflexivity.
Defined.

(** X2. A successful [loadModel] on an empty cache did, in this order of
    dependency: set the WASM path, fetch the requested URL (the default one
    when none is given) once and get an ok response, read that response's
    body, and build the returned handle from exactly those bytes; the handle
    is then the cached one. *)
Theorem loadModel_success_data_flow
  (W : Type) (host : Host W) (u : option string) (s s' : St W) (h : Handle) :
  model s = None ->
  MLService.loadModel host u s = (Ok h, s') ->
  exists evs response buf,
    log s' = evs ++ log s /\
    model s' = Some h /\
    In (EvSetWasmPath MLService.wasm_path (Ok tt)) evs /\
    In (EvFetch (match u with Some x => x | None => MLService.default_modelUrl end)
          (Ok response)) evs /\
    ok response = true /\
    In (EvArrayBuffer response (Ok buf)) evs /\
    In (EvLoadTFLiteModel buf (Ok h)) evs /\
    count is_fetch evs = 1 /\
    count is_load_call evs = 1.
Proof.
  intros Hnone. destruct s as [cached lbls w l]. cbn [model] in Hnone. subst cached.
  cbn [log]. unfold_service; repeat host_step.
  all: intros Hrun; inversion Hrun; subst; clear Hrun.
  all: do 3 eexists; cbn [log model]; give_log.
  all: repeat split; try eassumption; simpl; auto 20.
Qed.

Lemma loadModel_success_data_flow_witness :
  exists s',
    MLService.loadModel (fake (working [1%Q])) (Some "https://example.org/m.tflite")
      start = (Ok 1, s') /\
    model s' = Some 1 /\
    count is_fetch (log s') = 1.
Proof.
  destruct (MLService.loadModel (fake (working [1%Q]))
              (Some "https://example.org/m.tflite") start) as [r s'] eqn:Hrun.
  assert (Hr : r = Ok 1) by (vm_compute in Hrun; inversion Hrun; reflexivity).
  subst r. exists s'. split; [reflexivity|].
  destruct (@loadModel_success_data_flow FakeWorld (fake (working [1%Q]))
              (Some "https://example.org/m.tflite") start s' 1 eq_refl Hrun)
    as (evs & response & buf & Hlog & Hm & _ & _ & _ & _ & _ & Hf & _).
  split; [exact Hm|].
  rewrite Hlog. cbn [log start MLService.init]. rewrite app_nil_r. exact Hf.
Defined.

(** X3. The 500 ms wait of [loadModel] happens only when window.tflite is missing
    at the first look, and then exactly once; when the library has arrived by
    the second look the load goes on to configure the WASM path instead of
    throwing. *)
Theorem wait_only_when_runtime_missing
  (W : Type) (host : Host W) (u : option string) (s : St W) :
  model s = None ->
  exists r s' evs,
    MLService.loadModel host u s = (r, s') /\
    log s' = evs ++ log s /\
    (window_tflite host (world s) = true -> count is_sleep evs = 0) /\
    (window_tflite host (world s) = false ->
     In (EvSleep 500) evs /\ count is_sleep evs = 1) /\
    (window_tflite host (world s) = false ->
     window_tflite host (setTimeout host 500 (world s)) = true ->
     exists o, In (EvSetWasmPath MLService.wasm_path o) evs).
Proof.
  intros Hnone. destruct s as [cached lbls w l]. cbn [model] in Hnone. subst cached.
  cbn [log world]. unfold_service; repeat host_step.
  all: do 3 eexists; (split; [reflexivity|]); cbn [log]; give_log.
  all: cbv [count filter is_sleep List.length].
  all: repeat split; intros; try discriminate; try congruence; simpl; eauto 20.
Qed.

Lemma wait_only_when_runtime_missing_witness :
  count is_sleep (log (snd (MLService.loadModel (fake no_runtime) None start))) = 1.
Proof.
  destruct (@wait_only_when_runtime_missing FakeWorld (fake no_runtime) None start
              eq_refl)
    as (r & s' & evs & Hrun & Hlog & _ & Hwait & _).
  rewrite Hrun. cbn [snd]. rewrite Hlog. cbn [log start MLService.init].
  rewrite app_nil_r. apply Hwait. reflexivity.
Defined.

(** X4. [classifyImage] never chooses a model URL of its own.  Every fetch made
    during a call asks for the default URL of the source, with the WASM path
    of tfjs-tflite 0.0.1-alpha.10.  With a handle already in the cache, for
    instance one that an earlier [loadModel] built from another URL, a call
    makes no fetch and no other step of the load, keeps that handle and runs
    the forward pass on it. *)
Theorem classifyImage_default_url_or_cached_model
  (W : Type) (host : Host W) (s : St W) (imageSrc : string) :
  exists r s' evs,
    MLService.classifyImage host imageSrc s = (Ok r, s') /\
    log s' = evs ++ log s /\
    (forall url o, In (EvFetch url o) evs ->
       url = "https://storage.googleapis.com/tfjs-models/tflite/mobilenet_v1_1.0_224_quant.tflite") /\
    (forall path o, In (EvSetWasmPath path o) evs ->
       path = "https://cdn.jsdelivr.net/npm/@tensorflow/tfjs-tflite@0.0.1-alpha.10/dist/") /\
    (forall h, model s = Some h ->
       count is_fetch evs = 0 /\
       count is_load_step evs = 0 /\
       model s' = Some h /\
       (forall m t o, In (EvPredict m t o) evs -> m = h)).
Proof.
  exec s.
  all: do 3 eexists; (split; [reflexivity|]); cbn [log model]; give_log.
  all: split; [intros ? ? Hin; in_log; inversion Hin; reflexivity|].
  all: split; [intros ? ? Hin; in_log; inversion Hin; reflexivity|].
  all: intros h' Hh; try discriminate Hh; inversion Hh; subst h'.
  all: cbv [count filter is_fetch is_load_step List.length].
  all: repeat split; intros m t o Hin; in_log; inversion Hin; reflexivity.
Qed.

Lemma classifyImage_default_url_or_cached_model_witness :
  let host := fake (working [1%Q]) in
  let s1 := snd (MLService.loadModel host (Some "https://example.org/m.tflite") start) in
  let s2 := snd (MLService.classifyImage host "leaf.jpg" s1) in
  In (EvFetch "https://example.org/m.tflite"
        (Ok {| ok := true; statusText := "OK"; body_id := 0 |})) (log s1) /\
  count is_fetch (log s2) = count is_fetch (log s1) /\
  model s2 = Some 1.
Proof.
  intros host s1 s2.
  destruct (classifyImage_default_url_or_cached_model host s1 "leaf.jpg")
    as (r & s' & evs & Hrun & Hlog & _ & _ & Hcached).
  destruct (Hcached 1) as (Hfetch & _ & Hkept & _); [vm_compute; reflexivity|].
  split; [vm_compute; auto 20|].
  subst s2. rewrite Hrun. cbn [snd]. split; [|exact Hkept].
  rewrite Hlog, count_app, Hfetch. reflexivity.
Defined.

(** X5. The forward pass always runs on the cached model: the handle given to
    [predict] is the one in the cache when the call returns, and the one that
    was there before the call if there was one. *)
Theorem predict_uses_cached_model
  (W : Type) (host : Host W) (s : St W) (imageSrc : string) :
  exists r s' evs,
    MLService.classifyImage host imageSrc s = (Ok r, s') /\
    log s' = evs ++ log s /\
    (forall m t o, In (EvPredict m t o) evs ->
       model s' = Some m /\
       (forall h, model s = Some h -> m = h) /\
       (model s = None -> exists buf, In (EvLoadTFLiteModel buf (Ok m)) evs)).
Proof.
  exec s.
  all: do 3 eexists; (split; [reflexivity|]); cbn [log model]; give_log.
  all: intros m t o Hin; in_log; inversion Hin; subst.
  all: repeat split; intros; try discriminate; try congruence; simpl; eauto 20.
Qed.

Lemma predict_uses_cached_model_witness :
  let s' := snd (MLService.classifyImage (fake (working [1%Q])) "leaf.jpg" start) in
  model s' = Some 1 /\
  In (EvPredict 1 (MLService.preprocess "leaf.jpg") (Ok 0)) (log s').
Proof.
  intros s'.
  destruct (predict_uses_cached_model (fake (working [1%Q])) start "leaf.jpg")
    as (r & s1 & evs & Hrun & Hlog & Hp).
  assert (Hin : In (EvPredict 1 (MLService.preprocess "leaf.jpg") (Ok 0)) evs).
  { vm_compute in Hrun. inversion Hrun; subst; clear Hrun.
    cbn [log start MLService.init] in Hlog. rewrite app_nil_r in Hlog. subst evs.
    simpl. auto 20. }
  subst s'. rewrite Hrun. cbn [snd]. split.
  - apply (Hp _ _ _ Hin).
  - rewrite Hlog. cbn [log start MLService.init]. rewrite app_nil_r. exact Hin.
Defined.

(** X6. No fallback is silent: a call writes the "Inference error:" line to
    console.error exactly once when a step of its pipeline failed and not at
    all otherwise; a failure of the load step is reported twice, by
    [loadModel] and by [classifyImage], with the same error. *)
Theorem failure_is_logged_once
  (W : Type) (host : Host W) (s : St W) (imageSrc : string) :
  exists r s' evs,
    MLService.classifyImage host imageSrc s = (Ok r, s') /\
    log s' = evs ++ log s /\
    count is_inference_error evs = (if pipeline_failed evs then 1 else 0) /\
    (forall err, In (EvConsoleError "Failed to load TFLite model:" err) evs ->
       In (EvConsoleError "Inference error:" err) evs).
Proof.
  exec s.
  all: do 3 eexists; (split; [reflexivity|]); cbn [log]; give_log.
  all: split; [|intros err Hin; in_log; inversion Hin; subst; simpl; auto].
  all: unfold pipeline_failed;
    cbn [runtime_unavailable existsb failed orb count filter is_inference_error
         String.eqb Ascii.eqb Bool.eqb List.length];
    repeat match goal with
      | E : ok _ = _ |- _ => rewrite E
      end; reflexivity.
Qed.

Lemma failure_is_logged_once_witness :
  count is_inference_error
    (log (snd (MLService.classifyImage (fake bad_image) "leaf.jpg" start))) = 1.
Proof.
  destruct (failure_is_logged_once (fake bad_image) start "leaf.jpg")
    as (r & s' & evs & Hrun & Hlog & Hcount & _).
  rewrite Hrun. cbn [snd]. rewrite Hlog. cbn [log start MLService.init].
  rewrite app_nil_r. rewrite Hcount.
  vm_compute in Hrun. inversion Hrun; subst; clear Hrun.
  cbn [log start MLService.init] in Hlog. rewrite app_nil_r in Hlog. subst evs.
  reflexivity.
Defined.

(** X7. A confidence above 0 is proof of a real inference: it is only returned
    by a call in which no step failed and whose forward pass delivered a
    vector with a positive element. *)
Theorem positive_confidence_means_inference
  (W : Type) (host : Host W) (s : St W) (imageSrc : string) :
  exists r s' evs,
    MLService.classifyImage host imageSrc s = (Ok r, s') /\
    log s' = evs ++ log s /\
    ((0 < confidence r)%Z ->
     pipeline_failed evs = false /\
     exists v, yields evs v /\ exists x, In x v /\ (0 < x)%Q).
Proof.
  exec s.
  all: do 3 eexists; (split; [reflexivity|]); cbn [log confidence]; give_log.
  all: intros Hpos; try discriminate Hpos.
  all: split;
    [unfold pipeline_failed; cbn [runtime_unavailable existsb failed orb];
     repeat match goal with E : ok _ = _ |- _ => rewrite E end; reflexivity|].
  all: eexists; split; [split; eexists; simpl; eauto 20|].
  all: match goal with
       | H : MLService.scan ?v 0 0%Q 0 = (?q, _) |- _ =>
           destruct (scan_inv _ _ _ _ H) as (_ & _ & [[-> _] | (j & Hj & _ & -> & Hlt & _)]);
           [discriminate Hpos | exists (nth j v 0%Q); split; [apply nth_In; exact Hj | exact Hlt]]
       end.
Qed.

Lemma positive_confidence_means_inference_witness :
  pipeline_failed
    (log (snd (MLService.classifyImage (fake (working [1#10; 9#10]%Q)) "leaf.jpg" start)))
  = false.
Proof.
  destruct (positive_confidence_means_inference
              (fake (working [1#10; 9#10]%Q)) start "leaf.jpg")
    as (r & s' & evs & Hrun & Hlog & Hpos).
  rewrite Hrun. cbn [snd]. rewrite Hlog. cbn [log start MLService.init].
  rewrite app_nil_r. apply Hpos.
  vm_compute in Hrun. inversion Hrun. reflexivity.
Defined.

(** A call whose forward pass delivered a vector had no failing step. *)
Lemma classifyImage_yields_no_failure
  (W : Type) (host : Host W) (s : St W) (imageSrc : string) :
  exists r s' evs,
    MLService.classifyImage host imageSrc s = (Ok r, s') /\
    log s' = evs ++ log s /\
    (forall v, yields evs v -> pipeline_failed evs = false).
Proof.
  exec s.
  all: do 3 eexists; (split; [reflexivity|]); cbn [log]; give_log.
  all: intros v [[o Hdata] [t Hdisp]]; in_log.
  all: unfold pipeline_failed; cbn [runtime_unavailable existsb failed orb];
    repeat match goal with E : ok _ = _ |- _ => rewrite E end; reflexivity.
Qed.

Lemma Math_round_small (x : Q) : (0 <= x)%Q -> (x < 1 # 2)%Q -> Math_round x = 0%Z.
Proof.
  intros H0 H1. unfold Math_round.
  pose proof (Qfloor_le (x + (1 # 2))) as Hle.
  pose proof (Qlt_floor (x + (1 # 2))) as Hlt.
  assert (Hup : (inject_Z (Qfloor (x + (1 # 2))) < inject_Z 1)%Q).
  { eapply Qle_lt_trans; [exact Hle|]. change (inject_Z 1) with 1%Q. lra. }
  assert (Hdown : (inject_Z 0 < inject_Z (Qfloor (x + (1 # 2)) + 1))%Q).
  { eapply Qle_lt_trans; [|exact Hlt]. change (inject_Z 0) with 0%Q. lra. }
  rewrite <- Zlt_Qlt in Hup, Hdown. lia.
Qed.

(** X8. The fallback object is not a reliable sign of failure: a forward pass whose
    maximum is positive but below 0.005 and sits at an index that is 3 modulo
    4 makes a successful call answer exactly {label: "Healthy",
    confidence: 0}. *)
Theorem tiny_maximum_looks_like_fallback
  (W : Type) (host : Host W) (s : St W) (imageSrc : string) :
  labels s = MLService.labels_init ->
  exists r s' evs,
    MLService.classifyImage host imageSrc s = (Ok r, s') /\
    log s' = evs ++ log s /\
    (forall v i, yields evs v -> is_argmax_first v i -> Nat.modulo i 4 = 3 ->
       (0 < nth i v 0)%Q -> (nth i v 0 < 1 # 200)%Q ->
       r = MLService.fallback /\ pipeline_failed evs = false).
Proof.
  intros Hlbl.
  destruct (classifyImage_yields_no_failure host s imageSrc)
    as (r & s' & evs & Hrun & Hlog & Hok).
  exists r, s', evs. split; [exact Hrun|]. split; [exact Hlog|].
  intros v i Hv Harg Hmod Hpos Hsmall.
  pose proof (classifyImage_yields _ _ _ Hrun Hlog Hv) as E.
  rewrite Hlbl in E. inversion E; subst r; clear E.
  split; [|apply (Hok v); exact Hv].
  unfold outcome_of, MLService.fallback.
  destruct (MLService.scan v 0 0%Q 0) as [m k] eqn:Hscan. cbn [fst snd].
  assert (Hex : exists x, In x v /\ (0 < x)%Q).
  { exists (nth i v 0%Q). split; [apply nth_In; apply Harg | exact Hpos]. }
  destruct (scan_positive _ Hscan Hex) as (Hk & ->).
  rewrite <- (is_argmax_first_unique Harg Hk).
  change (List.length MLService.labels_init) with 4. rewrite Hmod.
  f_equal. apply Math_round_small; [|].
  - apply Qmult_le_0_compat; [apply Qlt_le_weak; exact Hpos | discriminate].
  - lra.
Qed.

Lemma tiny_maximum_looks_like_fallback_witness :
  fst (MLService.classifyImage (fake (working [0; 0; 0; 1#1000]%Q)) "leaf.jpg" start)
  = Ok MLService.fallback.
Proof.
  destruct (@tiny_maximum_looks_like_fallback FakeWorld
              (fake (working [0; 0; 0; 1#1000]%Q)) start "leaf.jpg" eq_refl)
    as (r & s' & evs & Hrun & Hlog & Htiny).
  rewrite Hrun. cbn [fst]. f_equal.
  apply (Htiny [0; 0; 0; 1#1000]%Q 3).
  - vm_compute in Hrun. inversion Hrun; subst; clear Hrun.
    cbn [log start MLService.init] in Hlog. rewrite app_nil_r in Hlog. subst evs.
    split; eexists; simpl; eauto 20.
  - repeat split; simpl.
    + lia.
    + intros [|[|[|[|j]]]] Hj; simpl; try lia; discriminate.
    + intros [|[|[|j]]] Hj; simpl; try lia; reflexivity.
  - reflexivity.
  - reflexivity.
  - reflexivity.
Defined.

(** * Properties of the application handlers *)

(** What a call of [classifyImage] gives its caller when the label table is
    the initial one. *)
Lemma classifyImage_answer
  (W : Type) (host : Host W) (s : St W) (imageSrc : string) :
  labels s = MLService.labels_init ->
  exists r s' evs,
    MLService.classifyImage host imageSrc s = (Ok r, s') /\
    log s' = evs ++ log s /\
    labels s' = MLService.labels_init /\
    (exists l, label r = Some l /\ In l MLService.labels_init) /\
    (0 <= confidence r)%Z /\
    (pipeline_failed evs = true -> r = MLService.fallback) /\
    (forall v, yields evs v -> r = outcome_of MLService.labels_init v).
Proof.
  intros Hlbl.
  destruct (classifyImage_completes host s imageSrc)
    as (r & s' & evs & Hrun & Hlog & Hkeep & Hcase).
  destruct (classifyImage_yields_no_failure host s imageSrc)
    as (r2 & s2 & evs2 & Hrun2 & Hlog2 & Hok).
  rewrite Hrun in Hrun2. inversion Hrun2; subst r2 s2; clear Hrun2.
  assert (evs2 = evs) by (apply (app_inv_tail (log s)); congruence). subst evs2.
  exists r, s', evs. split; [exact Hrun|]. split; [exact Hlog|].
  split; [congruence|].
  assert (Hout : forall v, yields evs v -> r = outcome_of MLService.labels_init v).
  { intros v Hv. pose proof (classifyImage_yields _ _ _ Hrun Hlog Hv) as E.
    rewrite Hlbl in E. congruence. }
  assert (Hfail : pipeline_failed evs = true -> r = MLService.fallback).
  { intros Hf. destruct Hcase as [-> | [v Hv]]; [reflexivity|].
    rewrite (Hok v Hv) in Hf. discriminate Hf. }
  repeat split; auto.
  - destruct Hcase as [-> | [v Hv]].
    + exists "Healthy". simpl. auto 10.
    + rewrite (Hout v Hv). apply label_lookup.
  - destruct Hcase as [-> | [v Hv]]; [discriminate|].
    rewrite (Hout v Hv). unfold outcome_of. cbn [confidence].
    destruct (MLService.scan v 0 0%Q 0) as [p k] eqn:Hscan. cbn [fst].
    change 0%Z with (Math_round (0 * 100)%Q). apply Math_round_le.
    apply Qmult_le_compat_r; [exact (scan_nonneg _ Hscan) | discriminate].
Qed.

(** An index into the table of diseases that is in range names one of them. *)
Lemma array_get_In (A : Type) (l : list A) (k : Z) (a : A) :
  array_get l k = Some a -> In a l.
Proof.
  unfold array_get. destruct (k <? 0)%Z; [discriminate|]. apply nth_error_In.
Qed.

Ltac app_unfold :=
  cbv [App.handleCapture App.fetchExpertAdvice App.viewHistoryItem
       App.bind App.try_catch App.lift App.ret App.throw App.set App.note
       App.call App.ask App.read App.with_world
       App.setScreen App.setCapturedImage App.setDiagnosis App.setConfidence
       App.setIsDiagnosing App.setExpertAdvice App.setHistory
       App.ui App.svc App.calls
       App.State.screen App.State.lang App.State.capturedImage
       App.State.diagnosis App.State.confidence App.State.isDiagnosing
       App.State.expertAdvice App.State.history];
  cbn [model labels world log].

Ltac app_step :=
  match goal with
  | |- context [find ?p constants.mockDiseases] =>
      destruct (find p constants.mockDiseases) eqn:?
  | |- context [App.Math_random ?b ?w] =>
      destruct (App.Math_random b w) as [? ?] eqn:?
  | |- context [array_get constants.mockDiseases ?k] =>
      destruct (array_get constants.mockDiseases k) eqn:?
  | |- context [App.Date_now ?b ?w] =>
      destruct (App.Date_now b w) as [? ?] eqn:?
  | |- context [App.toLocaleDateString ?b ?w] =>
      destruct (App.toLocaleDateString b w) as [? ?] eqn:?
  | |- context [App.navigator_onLine ?b ?w] =>
      destruct (App.navigator_onLine b w) eqn:?
  | |- context [App.GoogleGenAI ?b ?k ?w] =>
      destruct (App.GoogleGenAI b k w) as [[[]|?] ?] eqn:?
  | |- context [App.generateContent ?b ?m ?c ?w] =>
      destruct (App.generateContent b m c w) as [[[?|]|?] ?] eqn:?
  end;
  cbn [model labels world log label confidence].

(** The calls at the front of a list [big] that ends in [tail]. *)
Ltac app_prefix_of big tail :=
  match big with
  | tail => constr:(@nil App.Call)
  | ?e :: ?r => let r' := app_prefix_of r tail in constr:(e :: r')
  end.

(** Name the calls a run added in a goal [big = ?cs ++ l /\ _]. *)
Ltac give_calls :=
  match goal with
  | |- ?big = ?e ++ ?tl /\ _ =>
      let pre := app_prefix_of big tl in unify e pre; split; [reflexivity|]
  end.

(** Run [handleCapture] on a state whose classifier answers as
    [classifyImage_answer] says. *)
Ltac capture browser s image Hlbl :=
  let u := fresh "u" in
  let sv := fresh "sv" in
  let cs := fresh "cs" in
  let r := fresh "r" in
  let s1 := fresh "s1" in
  let evs := fresh "evs" in
  let lab := fresh "lab" in
  let conf := fresh "conf" in
  destruct s as [u sv cs];
  destruct u as [scr lng img dg cf busy adv hist];
  cbn [App.svc App.ui App.calls] in *;
  destruct (@classifyImage_answer _ (App.ml browser) sv image Hlbl)
    as (r & s1 & evs & Hrun & Hlog & Hlbl1 & (l & Hl & Hin) & Hconf & Hfail & Hout);
  destruct r as [lab conf]; cbn [label confidence] in *; subst lab;
  let m1 := fresh "m1" in
  let lb1 := fresh "lb1" in
  let w1 := fresh "w1" in
  let l1 := fresh "l1" in
  destruct s1 as [m1 lb1 w1 l1]; cbn [labels log] in *;
  app_unfold; rewrite Hrun; cbn [model labels world log label confidence];
  repeat app_step.

(** X9. [handleCapture] never throws and always ends on the result screen with
    the picture, the spinner off and some disease of the table as the
    diagnosis, whatever the classifier and the browser did. *)
Theorem handleCapture_always_shows_a_disease
  (W : Type) (browser : App.Browser W) (s : App.AppSt W) (image : string) :
  labels (App.svc s) = MLService.labels_init ->
  exists s',
    App.handleCapture browser image s = (Ok tt, s') /\
    App.State.screen (App.ui s') = App.Screen.result /\
    App.State.capturedImage (App.ui s') = Some image /\
    App.State.isDiagnosing (App.ui s') = false /\
    App.State.lang (App.ui s') = App.State.lang (App.ui s) /\
    (exists d, App.State.diagnosis (App.ui s') = Some d /\
               In d constants.mockDiseases) /\
    labels (App.svc s') = MLService.labels_init.
Proof.
  intros Hlbl. capture browser s image Hlbl.
  all: eexists; (split; [reflexivity|]);
    cbn [App.ui App.svc App.State.screen App.State.capturedImage
         App.State.isDiagnosing App.State.lang App.State.diagnosis labels].
  all: repeat split; try assumption.
  all: eexists; split; [reflexivity|].
  all: try (eapply find_some; eassumption).
  all: try (eapply array_get_In; eassumption).
  all: simpl; auto.
Qed.

Lemma handleCapture_always_shows_a_disease_witness :
  exists s',
    App.handleCapture (fake_browser bad_image (1 # 2) false None) "leaf.jpg" app_start
    = (Ok tt, s') /\
    App.State.screen (App.ui s') = App.Screen.result.
Proof.
  destruct (@handleCapture_always_shows_a_disease FakeWorld
              (fake_browser bad_image (1 # 2) false None) app_start "leaf.jpg" eq_refl)
    as (s' & Hrun & Hscreen & _).
  exists s'. split; [exact Hrun | exact Hscreen].
Defined.

(** X10. The confidence on the result screen is never 0: [handleCapture] shows the
    classifier's confidence unless that is 0, in which case it shows 98. *)
Theorem shown_confidence_is_never_zero
  (W : Type) (browser : App.Browser W) (s : App.AppSt W) (image : string) :
  labels (App.svc s) = MLService.labels_init ->
  exists r s1 s',
    MLService.classifyImage (App.ml browser) image (App.svc s) = (Ok r, s1) /\
    App.handleCapture browser image s = (Ok tt, s') /\
    App.State.confidence (App.ui s')
    = (if (confidence r =? 0)%Z then 98%Z else confidence r) /\
    (0 < App.State.confidence (App.ui s'))%Z.
Proof.
  intros Hlbl. capture browser s image Hlbl.
  all: do 3 eexists; split; [reflexivity|]; split; [reflexivity|];
    cbn [App.ui App.State.confidence confidence].
  all: split; [reflexivity|]; destruct (Z.eqb_spec conf 0); lia.
Qed.

Lemma shown_confidence_is_never_zero_witness :
  App.State.confidence
    (App.ui (snd (App.handleCapture (fake_browser bad_image (1 # 2) false None)
                    "leaf.jpg" app_start))) = 98%Z.
Proof.
  destruct (@shown_confidence_is_never_zero FakeWorld
              (fake_browser bad_image (1 # 2) false None) app_start "leaf.jpg" eq_refl)
    as (r & s1 & s' & Hclass & Hrun & Hshown & _).
  rewrite Hrun. cbn [snd]. rewrite Hshown.
  vm_compute in Hclass. inversion Hclass. reflexivity.
Defined.

(** X11. The labels "Maize Streak" and "Wheat Rust" lead to the disease of that
    name without any use of Math.random: the lower-cased English name of the
    disease contains the lower-cased label. *)
Theorem matching_labels_pick_their_disease
  (W : Type) (browser : App.Browser W) (s : App.AppSt W) (image : string) :
  labels (App.svc s) = MLService.labels_init ->
  exists r s1 s' cs,
    MLService.classifyImage (App.ml browser) image (App.svc s) = (Ok r, s1) /\
    App.handleCapture browser image s = (Ok tt, s') /\
    App.calls s' = cs ++ App.calls s /\
    (label r = Some "Maize Streak" ->
     option_map constants.id (App.State.diagnosis (App.ui s')) = Some "maize_streak" /\
     App.State.diagnosis (App.ui s') = nth_error constants.mockDiseases 1 /\
     forall x, ~ In (App.CallRandom x) cs) /\
    (label r = Some "Wheat Rust" ->
     option_map constants.id (App.State.diagnosis (App.ui s')) = Some "wheat_rust" /\
     App.State.diagnosis (App.ui s') = nth_error constants.mockDiseases 2 /\
     forall x, ~ In (App.CallRandom x) cs).
Proof.
  intros Hlbl. capture browser s image Hlbl.
  all: do 4 eexists; split; [reflexivity|]; split; [reflexivity|];
    cbn [App.ui App.calls App.State.diagnosis label].
  all: give_calls.
  all: split; intros Hlab; inversion Hlab; subst l;
    match goal with
    | H : find _ _ = _ |- _ => vm_compute in H; inversion H; subst
    end;
    repeat split; intros x Hx; simpl in Hx; intuition discriminate.
Qed.

Lemma matching_labels_pick_their_disease_witness :
  option_map constants.id
    (App.State.diagnosis
       (App.ui (snd (App.handleCapture
                       (fake_browser (working [1#10; 7#10; 2#10]%Q) 0 false None)
                       "leaf.jpg" app_start))))
  = Some "maize_streak".
Proof.
  destruct (@matching_labels_pick_their_disease FakeWorld
              (fake_browser (working [1#10; 7#10; 2#10]%Q) 0 false None)
              app_start "leaf.jpg" eq_refl)
    as (r & s1 & s' & cs & Hclass & Hrun & _ & Hmaize & _).
  rewrite Hrun. cbn [snd]. apply Hmaize.
  vm_compute in Hclass. inversion Hclass. reflexivity.
Defined.

(** [Math.floor(Math.random() * 3)] is an index of the table of diseases. *)
Lemma random_index_in_range (x : Q) :
  (0 <= x)%Q -> (x < 1)%Q ->
  exists d, array_get constants.mockDiseases (Qfloor (x * 3)) = Some d.
Proof.
  intros H0 H1.
  pose proof (Qfloor_le (x * 3)) as Hle.
  pose proof (Qlt_floor (x * 3)) as Hlt.
  assert (Hup : (inject_Z (Qfloor (x * 3)) < inject_Z 3)%Q).
  { eapply Qle_lt_trans; [exact Hle|]. change (inject_Z 3) with 3%Q. lra. }
  assert (Hdown : (inject_Z 0 < inject_Z (Qfloor (x * 3) + 1))%Q).
  { eapply Qle_lt_trans; [|exact Hlt]. change (inject_Z 0) with 0%Q. lra. }
  rewrite <- Zlt_Qlt in Hup, Hdown.
  assert (Hk : Qfloor (x * 3) = 0%Z \/ Qfloor (x * 3) = 1%Z \/ Qfloor (x * 3) = 2%Z) by lia.
  destruct Hk as [-> | [-> | ->]]; eexists; reflexivity.
Qed.





(** Looking a disease of the table up by its id finds that disease: the ids
    are pairwise distinct. *)
Lemma find_by_id (d : constants.Disease) :
  In d constants.mockDiseases ->
  find (fun d' => String.eqb (constants.id d') (constants.id d)) constants.mockDiseases
  = Some d.
Proof.
  intros Hin. simpl in Hin.
  destruct Hin as [<- | [<- | [<- | []]]]; reflexivity.
Qed.

(** X14. With Math.random in [0, 1), every capture puts exactly one new item in
    front of the history: it carries the picture, the id and crop of the
    disease now shown, and the classifier's own confidence (0 where the screen
    shows 98); and opening that item later with [viewHistoryItem] brings back
    the same disease and the same picture. *)
Theorem capture_is_saved_and_can_be_viewed
  (W : Type) (browser : App.Browser W) (s : App.AppSt W) (image : string) :
  labels (App.svc s) = MLService.labels_init ->
  (forall w, 0 <= fst (App.Math_random browser w) /\
             fst (App.Math_random browser w) < 1)%Q ->
  exists r s1 s' item d,
    MLService.classifyImage (App.ml browser) image (App.svc s) = (Ok r, s1) /\
    App.handleCapture browser image s = (Ok tt, s') /\
    App.State.history (App.ui s') = item :: App.State.history (App.ui s) /\
    App.State.diagnosis (App.ui s') = Some d /\
    App.HistoryItem.diseaseId item = constants.id d /\
    App.HistoryItem.crop item = constants.crop d /\
    App.HistoryItem.image item = image /\
    App.HistoryItem.confidence item = Some (confidence r) /\
    (forall s2 : App.AppSt W,
       exists s3,
         App.viewHistoryItem browser item s2 = (Ok tt, s3) /\
         App.State.diagnosis (App.ui s3) = Some d /\
         App.State.capturedImage (App.ui s3) = Some image /\
         App.State.screen (App.ui s3) = App.Screen.result).
Proof.
  intros Hlbl Hrange. capture browser s image Hlbl.
  all: try match goal with
         | E : App.Math_random _ ?w = (?x, _),
           H : array_get _ (Qfloor (?x * _)) = None |- _ =>
             exfalso; pose proof (Hrange w) as [H0 H1]; rewrite E in H0, H1;
             cbn [fst] in H0, H1;
             change (inject_Z (Z.of_nat (List.length constants.mockDiseases)))
               with 3%Q in H;
             destruct (random_index_in_range H0 H1) as [d' Hd'];
             rewrite H in Hd'; discriminate Hd'
         end.
  all: do 5 eexists; split; [reflexivity|]; split; [reflexivity|];
    cbn [App.ui App.State.history App.State.diagnosis App.HistoryItem.diseaseId
         App.HistoryItem.crop App.HistoryItem.image App.HistoryItem.confidence
         confidence].
  all: do 6 (split; [reflexivity|]).
  all: match goal with
       | H : find _ _ = Some ?d |- _ =>
           assert (Hd : In d constants.mockDiseases)
             by (eapply find_some; exact H)
       | H : array_get _ _ = Some ?d |- _ =>
           assert (Hd : In d constants.mockDiseases)
             by (eapply array_get_In; exact H)
       end.
  all: intros s2; destruct s2 as [u2 sv2 cs2];
    destruct u2 as [scr2 lng2 img2 dg2 cf2 busy2 adv2 hist2];
    unfold App.viewHistoryItem; cbn [App.HistoryItem.diseaseId];
    rewrite (find_by_id Hd); app_unfold; repeat app_step.
  all: eexists; split; [reflexivity|];
    cbn [App.ui App.State.diagnosis App.State.capturedImage App.State.screen];
    repeat split.
Qed.

Lemma capture_is_saved_and_can_be_viewed_witness :
  List.length
    (App.State.history
       (App.ui (snd (App.handleCapture (fake_browser bad_image (1 # 2) false None)
                       "leaf.jpg" app_start)))) = 1.
Proof.
  destruct (@capture_is_saved_and_can_be_viewed FakeWorld
              (fake_browser bad_image (1 # 2) false None) app_start "leaf.jpg" eq_refl)
    as (r & s1 & s' & item & d & _ & Hrun & Hhist & _).
  - intros w. split; [vm_compute; discriminate | vm_compute; reflexivity].
  - rewrite Hrun. cbn [snd]. rewrite Hhist. reflexivity.
Defined.

(** X15. [viewHistoryItem] ignores an item whose disease id is not in the table
    (nothing changes, nothing is asked of the browser), and for an id of the
    table it shows that disease and the item's picture but leaves the
    confidence on screen as it was: the item's own confidence is never
    shown. *)
Theorem viewHistoryItem_shows_item_but_not_its_confidence
  (W : Type) (browser : App.Browser W) (s : App.AppSt W) (item : App.HistoryItem.t) :
  ((forall d, In d constants.mockDiseases ->
              constants.id d <> App.HistoryItem.diseaseId item) ->
   App.viewHistoryItem browser item s = (Ok tt, s)) /\
  (forall d, In d constants.mockDiseases ->
             constants.id d = App.HistoryItem.diseaseId item ->
   exists s',
     App.viewHistoryItem browser item s = (Ok tt, s') /\
     App.State.diagnosis (App.ui s') = Some d /\
     App.State.capturedImage (App.ui s') = Some (App.HistoryItem.image item) /\
     App.State.screen (App.ui s') = App.Screen.result /\
     App.State.isDiagnosing (App.ui s') = false /\
     App.State.confidence (App.ui s') = App.State.confidence (App.ui s) /\
     App.State.history (App.ui s') = App.State.history (App.ui s) /\
     model (App.svc s') = model (App.svc s) /\
     log (App.svc s') = log (App.svc s)).
Proof.
  split.
  - intros Hnone. unfold App.viewHistoryItem.
    destruct (find _ constants.mockDiseases) as [d|] eqn:Hfind; [|reflexivity].
    exfalso. destruct (find_some _ _ Hfind) as [Hin Heq].
    apply (Hnone d Hin). apply String.eqb_eq. exact Heq.
  - intros d Hin Hid. destruct s as [u sv cs].
    destruct u as [scr lng img dg cf busy adv hist].
    unfold App.viewHistoryItem. rewrite <- Hid, (find_by_id Hin).
    app_unfold; repeat app_step.
    all: eexists; split; [reflexivity|];
      cbn [App.ui App.svc App.State.diagnosis App.State.capturedImage
           App.State.screen App.State.isDiagnosing App.State.confidence
           App.State.history model log];
      repeat split.
Qed.

Lemma viewHistoryItem_shows_item_but_not_its_confidence_witness :
  let item := {| App.HistoryItem.id := "1";
                 App.HistoryItem.date := "11/14/2023";
                 App.HistoryItem.diseaseId := "wheat_rust";
                 App.HistoryItem.image := "old.jpg";
                 App.HistoryItem.crop := "Wheat";
                 App.HistoryItem.confidence := Some 80%Z |} in
  let gone := {| App.HistoryItem.id := "2";
                 App.HistoryItem.date := "11/14/2023";
                 App.HistoryItem.diseaseId := "potato_blight";
                 App.HistoryItem.image := "old.jpg";
                 App.HistoryItem.crop := "Potato";
                 App.HistoryItem.confidence := Some 80%Z |} in
  App.State.confidence
    (App.ui (snd (App.viewHistoryItem (fake_browser bad_image 0 false None) item
                    app_start))) = 0%Z /\
  App.viewHistoryItem (fake_browser bad_image 0 false None) gone app_start
  = (Ok tt, app_start).
Proof.
  intros item gone.
  destruct (viewHistoryItem_shows_item_but_not_its_confidence
              (fake_browser bad_image 0 false None) app_start item) as [_ Hknown].
  destruct (viewHistoryItem_shows_item_but_not_its_confidence
              (fake_browser bad_image 0 false None) app_start gone) as [Hunknown _].
  split.
  - destruct (nth_error constants.mockDiseases 2) as [d|] eqn:E; [|discriminate E].
    destruct (Hknown d) as (s' & Hrun & _ & _ & _ & _ & Hconf & _).
    + eapply nth_error_In. exact E.
    + vm_compute in E. inversion E. reflexivity.
    + rewrite Hrun. cbn [snd]. rewrite Hconf. reflexivity.
  - apply Hunknown. intros d Hin. simpl in Hin.
    destruct Hin as [<- | [<- | [<- | []]]]; discriminate.
Defined.

(** X16. [fetchExpertAdvice] never throws and changes nothing but the advice text:
    when the client cannot be built or the request fails the text is the
    fixed apology, otherwise it is the text of the response, or empty when
    the response has none.  The one request it makes is for the model
    "gemini-1.5-flash-latest" with the prompt that names the disease and its
    crop. *)
Theorem fetchExpertAdvice_never_throws
  (W : Type) (browser : App.Browser W) (s : App.AppSt W) (d : constants.Disease) :
  exists s' cs,
    App.fetchExpertAdvice browser d s = (Ok tt, s') /\
    App.calls s' = cs ++ App.calls s /\
    App.State.screen (App.ui s') = App.State.screen (App.ui s) /\
    App.State.diagnosis (App.ui s') = App.State.diagnosis (App.ui s) /\
    App.State.confidence (App.ui s') = App.State.confidence (App.ui s) /\
    App.State.history (App.ui s') = App.State.history (App.ui s) /\
    model (App.svc s') = model (App.svc s) /\
    log (App.svc s') = log (App.svc s) /\
    (forall m c o, In (App.CallGenerateContent m c o) cs ->
       m = "gemini-1.5-flash-latest" /\
       c = ("As an agricultural expert for Ethiopian farmers, provide detailed treatment and prevention advice for "
            ++ constants.name d constants.en ++ " in " ++ constants.crop d
            ++ ". Use simple language. Provide the response in both English and Amharic. Focus on low-cost and organic solutions suitable for smallholder farmers.")%string) /\
    (forall k e, In (App.CallGoogleGenAI k (Throw e)) cs ->
       App.State.expertAdvice (App.ui s') = "Could not fetch expert advice at this time.") /\
    (forall m c e, In (App.CallGenerateContent m c (Throw e)) cs ->
       App.State.expertAdvice (App.ui s') = "Could not fetch expert advice at this time.") /\
    (forall m c t, In (App.CallGenerateContent m c (Ok t)) cs ->
       App.State.expertAdvice (App.ui s') = match t with Some x => x | None => "" end).
Proof.
  destruct s as [u sv cs0]. destruct u as [scr lng img dg cf busy adv hist].
  app_unfold; repeat app_step.
  all: do 2 eexists; split; [reflexivity|];
    cbn [App.ui App.svc App.calls App.State.screen App.State.diagnosis
         App.State.confidence App.State.history App.State.expertAdvice model log];
    give_calls.
  all: do 6 (split; [reflexivity|]).
  all: repeat split; intros; in_log;
    match goal with
    | H : _ = _ |- _ => inversion H; subst; reflexivity
    end.
Qed.

Lemma fetchExpertAdvice_never_throws_witness :
  App.State.expertAdvice
    (App.ui (snd (App.fetchExpertAdvice (fake_browser bad_image 0 true None)
                    (nth 0 constants.mockDiseases
                       {| constants.id := ""; constants.name := constants.localized "" "";
                          constants.crop := "";
                          constants.symptoms := constants.localized "" "";
                          constants.treatment := constants.localized "" "";
                          constants.prevention := constants.localized "" "" |})
                    app_start)))
  = "Could not fetch expert advice at this time.".
Proof.
  match goal with
  | |- context [App.fetchExpertAdvice ?b ?d ?s] =>
      destruct (fetchExpertAdvice_never_throws b s d)
        as (s' & cs & Hrun & Hcalls & _ & _ & _ & _ & _ & _ & _ & _ & Hfail & _)
  end.
  rewrite Hrun. cbn [snd].
  vm_compute in Hrun. inversion Hrun; subst s'; clear Hrun.
  cbn [App.calls app_start App.mounted] in Hcalls. rewrite app_nil_r in Hcalls.
  subst cs.
  eapply Hfail. simpl. right. left. reflexivity.
Defined.

(** X17. Expert advice is asked for only when the browser is online, and always
    for the disease on the result screen: offline, a capture makes no request
    and leaves the advice empty; every request of a capture carries the prompt
    of the disease it has just set as the diagnosis. *)
Theorem advice_is_for_the_shown_disease
  (W : Type) (browser : App.Browser W) (s : App.AppSt W) (image : string) :
  labels (App.svc s) = MLService.labels_init ->
  exists s' cs,
    App.handleCapture browser image s = (Ok tt, s') /\
    App.calls s' = cs ++ App.calls s /\
    (In (App.CallOnLine false) cs ->
     App.State.expertAdvice (App.ui s') = "" /\
     (forall k o, ~ In (App.CallGoogleGenAI k o) cs) /\
     (forall m c o, ~ In (App.CallGenerateContent m c o) cs)) /\
    (forall m c o, In (App.CallGenerateContent m c o) cs ->
       In (App.CallOnLine true) cs /\
       exists d, App.State.diagnosis (App.ui s') = Some d /\
                 c = App.advice_prompt d).
Proof.
  intros Hlbl. capture browser s image Hlbl.
  all: do 2 eexists; split; [reflexivity|];
    cbn [App.ui App.calls App.State.expertAdvice App.State.diagnosis]; give_calls.
  all: split.
  all: try (intros Hoff; in_log; fail).
  all: try (intros Hoff; repeat split; intros; intros Hin'; in_log; fail).
  all: intros m c o Hgen; in_log.
  all: inversion Hgen; subst;
    split; [simpl; auto 20 | eexists; split; reflexivity].
Qed.

Lemma advice_is_for_the_shown_disease_witness :
  App.State.expertAdvice
    (App.ui (snd (App.handleCapture
                    (fake_browser (working [1%Q]) 0 false (Some "Prune the trees."))
                    "leaf.jpg" app_start))) = "".
Proof.
  destruct (@advice_is_for_the_shown_disease FakeWorld
              (fake_browser (working [1%Q]) 0 false (Some "Prune the trees."))
              app_start "leaf.jpg" eq_refl)
    as (s' & cs & Hrun & Hcalls & Hoff & _).
  rewrite Hrun. cbn [snd]. apply Hoff.
  vm_compute in Hrun. inversion Hrun; subst s'; clear Hrun.
  cbn [App.calls app_start App.mounted] in Hcalls. rewrite app_nil_r in Hcalls.
  subst cs. simpl. auto.
Defined.

(** One action keeps the label table and the property that every item of the
    history resolves, and never shortens the history. *)
Lemma act_keeps_history_resolvable
  (W : Type) (browser : App.Browser W) (a : Action) (s : App.AppSt W) :
  labels (App.svc s) = MLService.labels_init ->
  Forall resolves (App.State.history (App.ui s)) ->
  labels (App.svc (act browser a s)) = MLService.labels_init /\
  Forall resolves (App.State.history (App.ui (act browser a s))) /\
  List.length (App.State.history (App.ui (act browser a s)))
  <= List.length (App.State.history (App.ui s))
     + (match a with Capture _ => 1 | ViewItem _ => 0 end).
Proof.
  intros Hlbl Hres. destruct a as [image | item]; cbn [act].
  - revert Hres. capture browser s image Hlbl.
    all: cbn [snd App.ui App.svc App.State.history labels List.length]; intros Hres.
    all: split; [assumption|]; split; [|lia].
    all: try assumption.
    all: constructor; [|assumption].
    all: eexists; split; [|reflexivity].
    all: try (eapply find_some; eassumption).
    all: eapply array_get_In; eassumption.
  - destruct s as [u sv cs]. destruct u as [scr lng img dg cf busy adv hist].
    cbn [App.svc App.ui App.State.history] in *.
    unfold App.viewHistoryItem.
    destruct (find _ constants.mockDiseases) as [d|];
      [|cbn [snd App.ret App.ui App.svc App.State.history]; repeat split; auto; lia].
    app_unfold; repeat app_step.
    all: cbn [snd App.ui App.svc App.State.history labels]; repeat split; auto; lia.
Qed.

(** X18. Whatever the user captures or opens, in any order and on any browser,
    starting from the mounted component: every item in the history names a
    disease of the table, so the history screen never has to show "Unknown"
    and [viewHistoryItem] never ignores an item of the list; and the history
    has at most one item per capture. *)
Theorem history_items_always_resolve
  (W : Type) (browser : App.Browser W) (l : list Action) (w : W) :
  let s := acts browser l (App.mounted w) in
  Forall resolves (App.State.history (App.ui s)) /\
  List.length (App.State.history (App.ui s))
  <= List.length (filter (fun a => match a with Capture _ => true | _ => false end) l) /\
  (forall item, In item (App.State.history (App.ui s)) ->
     forall s2 : App.AppSt W,
       App.State.screen (App.ui (snd (App.viewHistoryItem browser item s2)))
       = App.Screen.result).
Proof.
  cbv zeta.
  assert (Hgen : forall (s0 : App.AppSt W),
             labels (App.svc s0) = MLService.labels_init ->
             Forall resolves (App.State.history (App.ui s0)) ->
             Forall resolves (App.State.history (App.ui (acts browser l s0))) /\
             List.length (App.State.history (App.ui (acts browser l s0)))
             <= List.length (App.State.history (App.ui s0))
                + List.length (filter (fun a => match a with
                                                | Capture _ => true
                                                | _ => false
                                                end) l)).
  { induction l as [|a l IH]; intros s0 Hlbl Hres.
    - cbn. split; [assumption | lia].
    - destruct (@act_keeps_history_resolvable W browser a s0 Hlbl Hres)
        as (Hlbl' & Hres' & Hlen).
      destruct (IH _ Hlbl' Hres') as [Hall Hle].
      change (acts browser (a :: l) s0) with (acts browser l (act browser a s0)).
      split; [exact Hall|].
      cbn [filter]. destruct a; cbn [List.length] in *; lia. }
  destruct (Hgen (App.mounted w) eq_refl (Forall_nil _)) as [Hall Hle].
  split; [exact Hall|]. split; [exact Hle|].
  intros item Hin s2.
  rewrite Forall_forall in Hall. destruct (Hall item Hin) as (d & Hd & Hid).
  destruct s2 as [u sv cs]. destruct u as [scr lng img dg cf busy adv hist].
  unfold App.viewHistoryItem. rewrite <- Hid, (find_by_id Hd).
  app_unfold; repeat app_step.
  all: reflexivity.
Qed.

Lemma history_items_always_resolve_witness :
  let b := fake_browser bad_image (1 # 2) false None in
  let s := acts b [Capture "a.jpg"; Capture "b.jpg"] app_start in
  List.length (App.State.history (App.ui s)) <= 2 /\
  exists item,
    In item (App.State.history (App.ui s)) /\
    App.State.screen (App.ui (snd (App.viewHistoryItem b item app_start)))
    = App.Screen.result.
Proof.
  intros b s.
  destruct (history_items_always_resolve b [Capture "a.jpg"; Capture "b.jpg"] (false, 0))
    as (_ & Hlen & Hview).
  split; [exact Hlen|].
  assert (Hex : exists item, In item (App.State.history (App.ui s))).
  { vm_compute. eexists. left. reflexivity. }
  destruct Hex as [item Hin]. exists item. split; [exact Hin|].
  apply (Hview item Hin).
Defined.
